(** * Edge face-recognition pipeline: ingestion and recognition handlers

    A shallow embedding of [fd_component.py] (the edge ingestion /
    face-detection component) and [fr_lambda.py] (the recognition Lambda),
    with the properties of the pipeline-coordination protocol proved about
    the embedded handlers.

    Conventions of the embedding.
    - Python exceptions are values of [exn]; a call that may raise returns a
      [result].  Statements run in a state-and-exception monad in which the
      state survives a raise, as in Python.
    - Library calls (json, base64, PIL, MTCNN, torch, boto3, tempfile, the
      process environment) are the fields of a record [Externals]; the code
      of the two files is written over an arbitrary such record.
    - A float32 number is the rational it denotes ([Qc]); NaN and the
      infinities are not represented.  The float32 operations are library
      calls too: each returns the exact result rounded, and nothing in the
      code of the handlers depends on how.  A division raises
      [ZeroDivisionError] on a zero divisor so that its absence can be
      stated.
    - The file system is a finite map from paths to file contents.  *)

From Stdlib Require Import QArith Qcanon Qround.
From stdpp Require Import gmap strings list fin_maps pretty.

Local Open Scope string_scope.
Set Warnings "-register-all".
Set Default Proof Using "Type".

(** ** Python runtime: exceptions, results, the statement monad *)

Module Py.

Inductive exn : Type :=
  | UnicodeDecodeError
  | JSONDecodeError
  | AttributeError
  | TypeError
  | KeyError (key : string)
  | IndexError
  | ValueError
  | BinasciiError
  | ZeroDivisionError
  | RuntimeError
  | OSError
  | FileNotFoundError (path : string)
  | FileExistsError (path : string)
  | NotADirectoryError (path : string)
  | PermissionError (path : string)
  | UnidentifiedImageError
  | ClientError.

(** [isinstance(e, OSError)]: the classes that derive from [OSError]. *)
Definition is_OSError (e : exn) : bool :=
  match e with
  | OSError | FileNotFoundError _ | FileExistsError _ | NotADirectoryError _
  | PermissionError _ | UnidentifiedImageError => true
  | _ => false
  end.

Inductive result (A : Type) : Type :=
  | Ok (a : A)
  | Raise (e : exn).
Arguments Ok {A} a.
Arguments Raise {A} e.

Definition M (S A : Type) : Type := S -> result A * S.

Definition ret {S A} (a : A) : M S A := fun s => (Ok a, s).

Definition raise {S A} (e : exn) : M S A := fun s => (Raise e, s).

Definition bind {S A B} (m : M S A) (k : A -> M S B) : M S B :=
  fun s =>
    match m s with
    | (Ok a, s') => k a s'
    | (Raise e, s') => (Raise e, s')
    end.

(** A pure call that may raise, used as a statement. *)
Definition lift {S A} (r : result A) : M S A := fun s => (r, s).

Definition gets {S A} (f : S -> A) : M S A := fun s => (Ok (f s), s).

Definition modify {S} (f : S -> S) : M S unit := fun s => (Ok tt, f s).

(** [try: body  except Exception as e: handler e]. Every modelled exception
    derives from [Exception]. *)
Definition try_except {S A} (body : M S A) (handler : exn -> M S A) : M S A :=
  fun s =>
    match body s with
    | (Ok a, s') => (Ok a, s')
    | (Raise e, s') => handler e s'
    end.

(** [try: body  except OSError: handler]; other exceptions propagate. *)
Definition try_except_OSError {S A} (body : M S A) (handler : M S A) : M S A :=
  fun s =>
    match body s with
    | (Ok a, s') => (Ok a, s')
    | (Raise e, s') => if is_OSError e then handler s' else (Raise e, s')
    end.

(** [try: body  finally: final]: [final] always runs; an exception of
    [final] replaces the outcome of [body]. *)
Definition try_finally {S A} (body : M S A) (final : M S unit) : M S A :=
  fun s =>
    let '(r, s') := body s in
    match final s' with
    | (Ok _, s'') => (r, s'')
    | (Raise e, s'') => (Raise e, s'')
    end.

End Py.
Export Py.

Notation "'let*' x ':=' m 'in' k" := (bind m (fun x => k))
  (at level 10, x name, m at level 100, k at level 200,
   format "'[v' 'let*'  x  ':='  m  'in' '/' k ']'").
Notation "m ';;' k" := (bind m (fun _ => k))
  (at level 100, k at level 200, right associativity).

(** ** JSON values, as [json.loads] builds them *)

Inductive json : Type :=
  | JNull
  | JBool (b : bool)
  | JInt (n : Z)
  | JFloat (q : Qc)
  | JStr (s : string)
  | JArr (items : list json)
  | JObj (fields : list (string * json)).

(** A [dict] keeps its keys in insertion order; lookup by key. *)
Fixpoint assoc (k : string) (fields : list (string * json)) : option json :=
  match fields with
  | [] => None
  | (k', v) :: rest => if decide (k' = k) then Some v else assoc k rest
  end.

(** [bool(v)], the test behind [not v]. *)
Definition truthy (v : json) : bool :=
  match v with
  | JNull => false
  | JBool b => b
  | JInt n => negb (n =? 0)%Z
  | JFloat q => bool_decide (q <> Q2Qc 0)
  | JStr s => bool_decide (s <> "")
  | JArr items => bool_decide (items <> [])
  | JObj fields => bool_decide (fields <> [])
  end.

(** [v.get(k)]: [None] when the key is absent; only a [dict] has [get]. *)
Definition py_get (v : json) (k : string) : result json :=
  match v with
  | JObj fields => Ok (default JNull (assoc k fields))
  | _ => Raise AttributeError
  end.

(** [v.get(k, d)]. *)
Definition py_get_default (v : json) (k : string) (d : json) : result json :=
  match v with
  | JObj fields => Ok (default d (assoc k fields))
  | _ => Raise AttributeError
  end.

(** [v[k]] for a string key [k]. *)
Definition py_getitem (v : json) (k : string) : result json :=
  match v with
  | JObj fields =>
      match assoc k fields with
      | Some x => Ok x
      | None => Raise (KeyError k)
      end
  | _ => Raise TypeError
  end.

(** [for x in v]: the items iterated over, or [TypeError] when [v] is not
    iterable.  A string yields its characters and a dict its keys. *)
Definition py_iter (v : json) : result (list json) :=
  match v with
  | JArr items => Ok items
  | JObj fields => Ok (map (fun kv => JStr (fst kv)) fields)
  | JStr s => Ok (map (fun c => JStr (String c EmptyString)) (String.list_ascii_of_string s))
  | _ => Raise TypeError
  end.

(** ** Arrays of rank three: torch tensors and numpy arrays *)

Record arr (A : Type) : Type := mk_arr {
  shape : nat * nat * nat;
  at_ : nat -> nat -> nat -> A
}.
Arguments mk_arr {A} shape at_.
Arguments shape {A} a.
Arguments at_ {A} a i j k.

Definition tensor : Type := arr Qc.

(** A PIL image in mode RGB: a height x width x 3 array of bytes. *)
Definition image : Type := arr Z.

Definition amap {A B} (f : A -> B) (a : arr A) : arr B :=
  mk_arr (shape a) (fun i j k => f (at_ a i j k)).

(** The entries of an array in row-major order. *)
Definition entries {A} (a : arr A) : list A :=
  let '(n0, n1, n2) := shape a in
  i ← seq 0 n0; j ← seq 0 n1; k ← seq 0 n2; [at_ a i j k].

(** [a.permute(1, 2, 0)]: channels-first to channels-last. *)
Definition permute_1_2_0 {A} (a : arr A) : arr A :=
  let '(n0, n1, n2) := shape a in
  mk_arr (n1, n2, n0) (fun i j k => at_ a k i j).

(** [np.transpose(a, (2, 0, 1))]: channels-last to channels-first. *)
Definition transpose_2_0_1 {A} (a : arr A) : arr A :=
  let '(n0, n1, n2) := shape a in
  mk_arr (n2, n0, n1) (fun i j k => at_ a j k i).

Definition Qc_min (x y : Qc) : Qc := if decide (y < x)%Qc then y else x.
Definition Qc_max (x y : Qc) : Qc := if decide (x < y)%Qc then y else x.

(** [t.min()] and [t.max()]; torch raises on a tensor without entries. *)
Definition tensor_min (t : tensor) : result Qc :=
  match entries t with
  | [] => Raise RuntimeError
  | x :: rest => Ok (foldl Qc_min x rest)
  end.

Definition tensor_max (t : tensor) : result Qc :=
  match entries t with
  | [] => Raise RuntimeError
  | x :: rest => Ok (foldl Qc_max x rest)
  end.

(** Conversion of one number to [uint8]: truncation toward zero, then
    reduction modulo 256. *)
Definition to_uint8 (x : Qc) : Z :=
  ((if decide (Q2Qc 0 <= x)%Qc then Qfloor x else Qceiling x) mod 256)%Z.

(** [t.byte()]. *)
Definition tensor_byte (t : tensor) : arr Z := amap to_uint8 t.

(** [Image.fromarray(a, mode="RGB")] on an h x w x c array of bytes.  With
    three channels the image is the array.  With more, Pillow reads the
    array's bytes in row-major order three at a time and leaves the rest
    unread.  With fewer there are not enough bytes: [ValueError]. *)
Definition Image_fromarray (a : arr Z) : result image :=
  let '(h, w, c) := shape a in
  if decide (c = 3) then Ok a
  else if decide (3 < c) then
    Ok (mk_arr (h, w, 3)
          (fun i j k =>
             let n := (i * w + j) * 3 + k in
             at_ a (n / (w * c)) ((n / c) mod w) (n mod c)))
  else Raise ValueError.

(** [np.array(img)]. *)
Definition np_array (img : image) : arr Z := img.

(** ** The libraries and services the two files call *)

Definition bytes : Type := list Byte.byte.
Definition vec : Type := list Qc.

(** A loaded TorchScript module: a crop tensor to its embedding. *)
Definition model : Type := tensor -> result vec.

Record Externals : Type := {
  (** [os.getenv(name)] *)
  getenv : string -> option string;
  (** [payload.decode("utf-8")] *)
  utf8_decode : bytes -> result string;
  (** [json.loads], [json.dumps] *)
  json_loads : string -> result json;
  json_dumps : json -> string;
  (** [base64.b64decode(s)] on a [str], [base64.b64encode(b).decode("utf-8")] *)
  b64decode : string -> result bytes;
  b64encode : bytes -> string;
  (** [Image.open(f).convert("RGB")] on file contents, and the bytes that
      [img.save(path)] writes *)
  image_open : bytes -> result image;
  image_save : image -> bytes;
  (** [MTCNN(image_size, margin, min_face_size)(img, return_prob=True)] *)
  MTCNN : nat -> nat -> nat -> image -> result (option tensor * option Qc);
  (** [torch.jit.load(path).eval()] and [torch.load(path)] *)
  torch_jit_load : string -> result model;
  torch_load : string -> result (list vec * list string);
  (** float32 subtraction, multiplication and division: the exact result,
      rounded *)
  fl_sub : Qc -> Qc -> Qc;
  fl_mul : Qc -> Qc -> Qc;
  fl_div : Qc -> Qc -> Qc;
  (** [torch.linalg.vector_norm(v, 2)]: the Euclidean norm of a vector of
      float32 numbers, as the kernel computes it *)
  vector_norm : list Qc -> Qc;
  (** [os.makedirs(path, exist_ok=True)], given the files that exist: it
      raises on an empty path, on a regular file at the path or at one of
      its parents, or when the system refuses *)
  makedirs : string -> gmap string bytes -> result unit;
  (** the path of the [k]-th file that [tempfile] makes in this process for
      a directory and a suffix, given the files that exist; the file is
      created exclusively, so the path is not that of an existing file *)
  mkstemp : string -> string -> nat ->
            forall m : gmap string bytes, {name : string | m !! name = None};
  (** whether the queue service accepts [send_message(QueueUrl, MessageBody)] *)
  sqs_accepts : string -> string -> bool
}.

(** ** The world outside the interpreter *)

Inductive level : Type := INFO | WARNING | ERROR | STDOUT.

Record log_line : Type := mk_log {
  lvl : level;
  msg : string;
  exc : option exn
}.

Record World : Type := mk_world {
  fs : gmap string bytes;          (* files, by path *)
  sent : list (string * string);   (* accepted [send_message] calls, in order *)
  logged : list log_line           (* log and stdout lines, in order *)
}.

Definition set_fs (f : gmap string bytes -> gmap string bytes) (w : World) : World :=
  mk_world (f (fs w)) (sent w) (logged w).
Definition add_sent (m : string * string) (w : World) : World :=
  mk_world (fs w) (sent w ++ [m]) (logged w).
Definition add_log (l : log_line) (w : World) : World :=
  mk_world (fs w) (sent w) (logged w ++ [l]).

#[global] Instance result_ret : MRet result := fun _ a => Ok a.
#[global] Instance result_bind : MBind result := fun _ _ k r =>
  match r with
  | Ok a => k a
  | Raise e => Raise e
  end.

(** [[f x for x in l]]: the calls are made in order, the first to raise ends
    the comprehension. *)
Fixpoint py_list_comp {A B} (f : A -> result B) (l : list A) : result (list B) :=
  match l with
  | [] => Ok []
  | x :: rest => y ← f x; ys ← py_list_comp f rest; Ok (y :: ys)
  end.

Section Runtime.
Context (E : Externals).

(** [os.getenv(name, dflt)] *)
Definition os_getenv (name dflt : string) : string :=
  default dflt (getenv E name).

(** [sqs.send_message(QueueUrl=..., MessageBody=...)] *)
Definition sqs_send_message (QueueUrl MessageBody : string) : M World unit :=
  fun w =>
    if sqs_accepts E QueueUrl MessageBody
    then (Ok tt, add_sent (QueueUrl, MessageBody) w)
    else (Raise ClientError, w).

Definition logging (l : level) (m : string) (e : option exn) : M World unit :=
  modify (add_log (mk_log l m e)).

(** [os.makedirs(path, exist_ok=True)]; the directories themselves are not
    tracked. *)
Definition os_makedirs (path : string) : M World unit :=
  fun w => (makedirs E path (fs w), w).

(** [os.path.join(dir, name)] for a relative [name]. *)
Definition os_path_join (dir name : string) : string :=
  if decide (dir = "") then name
  else if decide (String.substring (String.length dir - 1) 1 dir = "/")
       then dir +:+ name
       else dir +:+ "/" +:+ name.

Definition write_file (path : string) (data : bytes) : M World unit :=
  modify (set_fs <[path := data]>).

(** [open(path, "rb").read()] *)
Definition read_file (path : string) : M World bytes :=
  fun w =>
    match fs w !! path with
    | Some data => (Ok data, w)
    | None => (Raise (FileNotFoundError path), w)
    end.

Definition os_path_exists (path : string) : M World bool :=
  gets (fun w => bool_decide (is_Some (fs w !! path))).

Definition os_remove (path : string) : M World unit :=
  fun w =>
    match fs w !! path with
    | Some _ => (Ok tt, set_fs (delete path) w)
    | None => (Raise (FileNotFoundError path), w)
    end.

(** [base64.b64decode(v)]: anything but a [str] is a [TypeError]. *)
Definition base64_b64decode (v : json) : result bytes :=
  match v with
  | JStr s => b64decode E s
  | _ => Raise TypeError
  end.

(** [t / d] by a scalar. *)
Definition tensor_div (t : tensor) (d : Qc) : result tensor :=
  if decide (d = Q2Qc 0) then Raise ZeroDivisionError
  else Ok (amap (fun x => fl_div E x d) t).

(** Two one-dimensional tensors, entry by entry, as torch broadcasts them:
    equal lengths pair up, a single entry pairs with every entry of the
    other, anything else is refused. *)
Definition broadcast (a b : vec) : result (list (Qc * Qc)) :=
  if decide (length a = length b) then Ok (zip a b)
  else match a, b with
       | [x], _ => Ok ((fun y => (x, y)) <$> b)
       | _, [y] => Ok ((fun x => (x, y)) <$> a)
       | _, _ => Raise RuntimeError
       end.

(** [torch.dist(a, b).item()]: the Euclidean norm of [a - b]. *)
Definition torch_dist (a b : vec) : result Qc :=
  pairs ← broadcast a b;
  Ok (vector_norm E ((fun xy => fl_sub E xy.1 xy.2) <$> pairs)).
End Runtime.

(** ** fd_component.py: the ingestion stage *)

Section fd_component.
Context (E : Externals).

Definition SQS_REQUEST_QUEUE_URL : string :=
  os_getenv E "SQS_REQUEST_QUEUE_URL"
    "https://sqs.us-east-1.amazonaws.com/ACCOUNT_ID/your-req-queue".
Definition SQS_RESPONSE_QUEUE_URL : string :=
  os_getenv E "SQS_RESPONSE_QUEUE_URL"
    "https://sqs.us-east-1.amazonaws.com/ACCOUNT_ID/your-resp-queue".
Definition TMP_DIR : string := os_getenv E "FD_TMP_DIR" "/tmp/faces".

(** [FaceDetection.__init__]: [self.mtcnn]. *)
Definition mtcnn : image -> result (option tensor * option Qc) :=
  MTCNN E 240 0 20.

(** The normalisation inside [detect_face_to_file] (the statements from
    [face_img = face_tensor - face_tensor.min()] to [Image.fromarray]). *)
Definition normalize_face (face_tensor : tensor) : result image :=
  lo ← tensor_min face_tensor;
  let face_img := amap (fun x => fl_sub E x lo) face_tensor in
  hi' ← tensor_max face_img;
  lo' ← tensor_min face_img;
  let denom := fl_sub E hi' lo' in
  face_img ←
    (if decide (Q2Qc 0 < denom)%Qc
     then scaled ← tensor_div E face_img denom;
          Ok (amap (fun x => fl_mul E x (Q2Qc 255)) scaled)
     else Ok (amap (fun x => fl_mul E x (Q2Qc 0)) face_img));
  Image_fromarray (permute_1_2_0 (tensor_byte face_img)).

(** [FaceDetection.detect_face_to_file] *)
Definition detect_face_to_file (image_bytes : bytes) (output_dir : string)
  : M World (option string) :=
  let* img := lift (image_open E image_bytes) in
  let img_np := np_array img in
  let img_pil : image := img_np in
  let* detection := lift (mtcnn img_pil) in
  match fst detection with
  | None => ret None
  | Some face_tensor =>
      os_makedirs E output_dir ;;
      let* face_pil := lift (normalize_face face_tensor) in
      let file_path := os_path_join output_dir "detected_face.jpg" in
      write_file file_path (image_save E face_pil) ;;
      ret (Some file_path)
  end.

Definition no_face_message (request_id filename : json) : json :=
  JObj [("request_id", request_id); ("filename", filename);
        ("result", JStr "No-Face")].

Definition face_message (request_id filename : json) (encoded_face : string)
  : json :=
  JObj [("request_id", request_id); ("filename", filename);
        ("face", JStr encoded_face)].

Definition on_message_received (topic : string) (payload : bytes)
  : M World unit :=
  logging INFO ("MQTT message on '" +:+ topic +:+ "'") None ;;
  try_except
    (let* text := lift (utf8_decode E payload) in
     let* message := lift (json_loads E text) in
     let* encoded := lift (py_get message "encoded") in
     let* request_id := lift (py_get message "request_id") in
     let* filename := lift (py_get message "filename") in
     if negb (truthy encoded) || negb (truthy request_id)
        || negb (truthy filename)
     then
       logging WARNING
         "Invalid payload; required keys: encoded, request_id, filename" None
     else
       let* raw := lift (base64_b64decode E encoded) in
       os_makedirs E TMP_DIR ;;
       let* detected_face_path := detect_face_to_file raw TMP_DIR in
       match detected_face_path with
       | None =>
           logging INFO
             "No face detected. Sending 'No-Face' to response queue." None ;;
           sqs_send_message E SQS_RESPONSE_QUEUE_URL
             (json_dumps E (no_face_message request_id filename))
       | Some path =>
           let* data := read_file path in
           let encoded_face := b64encode E data in
           let sqs_payload := face_message request_id filename encoded_face in
           sqs_send_message E SQS_REQUEST_QUEUE_URL (json_dumps E sqs_payload) ;;
           logging INFO "Face detected; enqueued to request queue." None
       end)
    (fun e => logging ERROR "Processing error: " (Some e)).
End fd_component.

(** ** fr_lambda.py: the recognition stage *)

(** The module-level [recognizer] object. *)
Record FaceRecognition : Type := mk_recognizer {
  _resnet : option model;
  _embeddings : option (list vec);
  _names : option (list string)
}.

(** State of the Lambda process: the world, the [recognizer] global, the
    one local of [lambda_handler] that is read before it is surely bound,
    and how many files [tempfile] has made so far. *)
Record Lambda : Type := mk_lambda {
  world : World;
  recognizer : FaceRecognition;
  face_path : option string;
  temp_files : nat
}.

Definition set_world (f : World -> World) (p : Lambda) : Lambda :=
  mk_lambda (f (world p)) (recognizer p) (face_path p) (temp_files p).
Definition set_recognizer (r : FaceRecognition) (p : Lambda) : Lambda :=
  mk_lambda (world p) r (face_path p) (temp_files p).
Definition set_face_path (o : option string) (p : Lambda) : Lambda :=
  mk_lambda (world p) (recognizer p) o (temp_files p).
Definition set_temp_files (n : nat) (p : Lambda) : Lambda :=
  mk_lambda (world p) (recognizer p) (face_path p) n.

(** Run a statement on the world inside the Lambda process. *)
Definition in_world {A} (m : M World A) : M Lambda A :=
  fun p => let '(r, w) := m (world p) in (r, set_world (fun _ => w) p).

(** [np.argmin(l)]: index of the first smallest item; [ValueError] on an
    empty sequence. *)
Fixpoint argmin_from (best : Qc) (best_i i : nat) (l : list Qc) : nat :=
  match l with
  | [] => best_i
  | x :: rest =>
      if decide (x < best)%Qc then argmin_from x i (S i) rest
      else argmin_from best best_i (S i) rest
  end.

Definition np_argmin (l : list Qc) : result nat :=
  match l with
  | [] => Raise ValueError
  | x :: rest => Ok (argmin_from x 0 1 rest)
  end.

(** [l[i]] on a list. *)
Definition list_getitem {A} (l : list A) (i : nat) : result A :=
  match l !! i with
  | Some x => Ok x
  | None => Raise IndexError
  end.

(** [for x in items: body x] *)
Fixpoint for_each {S A} (items : list A) (body : A -> M S unit) : M S unit :=
  match items with
  | [] => ret tt
  | x :: rest => body x ;; for_each rest body
  end.

Section fr_lambda.
Context (E : Externals).

Definition MODEL_PATH : string := os_getenv E "MODEL_PATH" "resnetV1.pt".
Definition MODEL_WT_PATH : string :=
  os_getenv E "MODEL_WT_PATH" "resnetV1_video_weights.pt".

(** [FaceRecognition.__init__] *)
Definition FaceRecognition_init : FaceRecognition :=
  mk_recognizer None None None.

(** [FaceRecognition._load_models] *)
Definition _load_models : M Lambda unit :=
  let* self := gets recognizer in
  (match _resnet self with
   | None =>
       let* net := lift (torch_jit_load E MODEL_PATH) in
       modify (fun p => set_recognizer
         (mk_recognizer (Some net) (_embeddings (recognizer p))
            (_names (recognizer p))) p)
   | Some _ => ret tt
   end) ;;
  let* self := gets recognizer in
  match _embeddings self, _names self with
  | Some _, Some _ => ret tt
  | _, _ =>
      let* saved := lift (torch_load E MODEL_WT_PATH) in
      modify (fun p => set_recognizer
        (mk_recognizer (_resnet (recognizer p)) (Some (fst saved))
           (Some (snd saved))) p)
  end.

(** The gallery match at the end of [predict_name]. *)
Definition nearest_name (emb : vec) (embeddings : list vec)
    (names : list string) : result string :=
  dists ← py_list_comp (fun e => torch_dist E emb e) embeddings;
  idx ← np_argmin dists;
  list_getitem names idx.

(** [FaceRecognition.predict_name] *)
Definition predict_name (face_img_path : string) : M Lambda string :=
  _load_models ;;
  let* data := in_world (read_file face_img_path) in
  let* face_pil := lift (image_open E data) in
  let face_np :=
    amap (fun z => fl_div E (Qc_of_Z z) (Q2Qc 255)) (np_array face_pil) in
  let face_np := transpose_2_0_1 face_np in
  let face_tensor : tensor := face_np in
  let* self := gets recognizer in
  match _resnet self, _embeddings self, _names self with
  | Some net, Some embeddings, Some names =>
      let* emb := lift (net face_tensor) in
      lift (nearest_name emb embeddings names)
  | _, _, _ => raise TypeError
  end.

Definition result_message (request_id : json) (label : string) : json :=
  JObj [("request_id", request_id); ("result", JStr label)].

(** [json.loads(v)]: anything but a [str] is a [TypeError]. *)
Definition json_loads_value (v : json) : result json :=
  match v with
  | JStr s => json_loads E s
  | _ => Raise TypeError
  end.

(** [tempfile.NamedTemporaryFile(delete=False, suffix=..., dir=...)]: the
    file exists, empty, from the moment it is opened. *)
Definition NamedTemporaryFile (dir suffix : string) : M Lambda string :=
  let* k := gets temp_files in
  modify (set_temp_files (S k)) ;;
  let* m := gets (fun p => fs (world p)) in
  let name := proj1_sig (mkstemp E dir suffix k m) in
  in_world (write_file name []) ;;
  ret name.

(** The [try] block of one iteration. *)
Definition record_body (record : json) : M Lambda unit :=
  let* body := lift (py_getitem record "body") in
  let* payload := lift (json_loads_value body) in
  let* request_id := lift (py_getitem payload "request_id") in
  let* face_b64 := lift (py_getitem payload "face") in
  let* name := NamedTemporaryFile "/tmp" ".jpg" in
  let* data := lift (base64_b64decode E face_b64) in
  in_world (write_file name data) ;;
  modify (set_face_path (Some name)) ;;
  let* label := predict_name name in
  let result_msg := result_message request_id label in
  in_world (sqs_send_message E (SQS_RESPONSE_QUEUE_URL E)
              (json_dumps E result_msg)).

(** The [finally] block of one iteration. *)
Definition record_cleanup : M Lambda unit :=
  try_except_OSError
    (let* bound := gets face_path in
     match bound with
     | Some path =>
         let* there := in_world (os_path_exists path) in
         if there then in_world (os_remove path) else ret tt
     | None => ret tt
     end)
    (ret tt).

Definition process_record (record : json) : M Lambda unit :=
  try_finally
    (try_except (record_body record)
       (fun e => in_world
          (logging STDOUT "[ERROR] Failed to process record: " (Some e))))
    record_cleanup.

Definition success_envelope : json :=
  JObj [("statusCode", JInt 200);
        ("body", JStr (json_dumps E
           (JObj [("message", JStr "Face recognition completed.")])))].

Definition lambda_handler (event : json) : M Lambda json :=
  modify (set_face_path None) ;;
  let* records_v := lift (py_get_default event "Records" (JArr [])) in
  let* records := lift (py_iter records_v) in
  for_each records process_record ;;
  ret success_envelope.
End fr_lambda.

(** ** Test doubles for the libraries

    A deterministic stand-in for every field of [Externals], small enough to
    evaluate, used to run the handlers on concrete inputs. *)

Module Stub.

(** Documents are flat: [k=v;k=v] is the object with those string fields. *)
Fixpoint split_on (sep : Ascii.ascii) (s : string) : list string :=
  match s with
  | EmptyString => [EmptyString]
  | String c rest =>
      if Ascii.eqb c sep then EmptyString :: split_on sep rest
      else match split_on sep rest with
           | [] => [String c EmptyString]
           | part :: parts => String c part :: parts
           end
  end.

Definition parse_field (s : string) : option (string * json) :=
  match split_on (Ascii.ascii_of_nat 61) s with
  | [k; v] => Some (k, JStr v)
  | _ => None
  end.

Definition parse_doc (s : string) : result json :=
  match mapM parse_field (split_on (Ascii.ascii_of_nat 59) s) with
  | Some fields => Ok (JObj fields)
  | None => Raise JSONDecodeError
  end.

Fixpoint print_doc (v : json) : string :=
  match v with
  | JNull => "null"
  | JBool b => if b then "true" else "false"
  | JInt n => pretty n
  | JFloat q => "<float>"
  | JStr s => s
  | JArr items => "[" +:+ String.concat "," (map print_doc items) +:+ "]"
  | JObj fields =>
      String.concat ";"
        (map (fun kv => let '(k, x) := kv in k +:+ "=" +:+ print_doc x) fields)
  end.

Definition enc64 (b : bytes) : string := String.string_of_list_byte b.
Definition dec64 (s : string) : result bytes :=
  Ok (String.list_byte_of_string s).

(** The picture format of the double: the height and the width in unary,
    each closed by a zero byte, then one byte of brightness. *)
Fixpoint unary (b : bytes) : nat * bytes :=
  match b with
  | Byte.x01 :: rest => let '(n, tl) := unary rest in (S n, tl)
  | _ => (0%nat, b)
  end.

Definition byte_of_Z (z : Z) : Byte.byte :=
  default Byte.x00 (Byte.of_N (Z.to_N (z mod 256))).
Definition Z_of_byte (b : Byte.byte) : Z := Z.of_N (Byte.to_N b).

Definition open_picture (b : bytes) : result image :=
  let '(h, b1) := unary b in
  match b1 with
  | Byte.x00 :: b2 =>
      let '(w, b3) := unary b2 in
      match b3 with
      | [Byte.x00; v] => Ok (mk_arr (h, w, 3%nat) (fun _ _ _ => Z_of_byte v))
      | _ => Raise UnidentifiedImageError
      end
  | _ => Raise UnidentifiedImageError
  end.

Definition save_picture (img : image) : bytes :=
  let '(h, w, _) := shape img in
  (replicate h Byte.x01 ++ Byte.x00 :: replicate w Byte.x01
     ++ [Byte.x00; byte_of_Z (at_ img 0 0 0)])%list.

(** The detector of the double finds a face unless the picture is white;
    the crop is a ramp over the picture's brightness. *)
Definition detector (image_size margin min_face_size : nat) (img : image)
  : result (option tensor * option Qc) :=
  if (at_ img 0 0 0 =? 255)%Z then Ok (None, None)
  else Ok (Some (mk_arr (3%nat, image_size, image_size)
                   (fun c i j => Qc_of_Z (at_ img 0 0 0 + Z.of_nat (c + i + j))
                                 / Q2Qc 128)%Qc),
           Some (Q2Qc 1)).

(** The network of the double reads the first pixel of the crop. *)
Definition load_net (path : string) : result model :=
  Ok (fun t => Ok [at_ t 0 0 0; at_ t 1 0 0; at_ t 2 0 0]).

Definition load_gallery (path : string) : result (list vec * list string) :=
  Ok ([[Q2Qc 0; Q2Qc 0; Q2Qc 0]; [Q2Qc 1; Q2Qc 1; Q2Qc 1]], ["alice"; "bob"]).

(** The norm of the double is the sum of squares, which orders vectors as
    the Euclidean norm does; its arithmetic is exact. *)
Definition sq_norm (v : list Qc) : Qc :=
  foldr Qcplus (Q2Qc 0) ((fun x => x * x)%Qc <$> v).

(** A name longer than every existing path, and longer with every file
    made. *)
Definition longest (m : gmap string bytes) : nat :=
  max_list (String.length <$> (map_to_list m).*1).

Fixpoint letters (n : nat) : string :=
  match n with
  | O => EmptyString
  | S n' => String (Ascii.ascii_of_nat 120) (letters n')
  end.

Definition temp_name (dir suffix : string) (k : nat) (m : gmap string bytes)
  : string :=
  dir +:+ "/tmp" +:+ letters (S (longest m) + k) +:+ suffix.

Lemma string_length_app (a b : string) :
  String.length (a +:+ b) = (String.length a + String.length b)%nat.
Proof. induction a as [|c a IH]; simpl; [done|]. by rewrite IH. Qed.

Lemma letters_length (n : nat) : String.length (letters n) = n.
Proof. induction n as [|n IH]; simpl; [done|]. by rewrite IH. Qed.

Lemma temp_name_fresh (dir suffix : string) (k : nat) (m : gmap string bytes) :
  m !! temp_name dir suffix k m = None.
Proof.
  destruct (m !! temp_name dir suffix k m) as [data|] eqn:Hm; [|done].
  exfalso.
  assert (String.length (temp_name dir suffix k m) <= longest m)%nat as Hle.
  { unfold longest. apply max_list_elem_of_le.
    apply list_elem_of_fmap. exists (temp_name dir suffix k m).
    split; [done|]. apply list_elem_of_fmap.
    exists (temp_name dir suffix k m, data). split; [done|].
    by apply elem_of_map_to_list. }
  unfold temp_name in Hle. rewrite !string_length_app, letters_length in Hle. lia.
Qed.

Definition E : Externals := {|
  getenv := fun _ => None;
  utf8_decode := fun b => Ok (String.string_of_list_byte b);
  json_loads := parse_doc;
  json_dumps := print_doc;
  b64decode := dec64;
  b64encode := enc64;
  image_open := open_picture;
  image_save := save_picture;
  MTCNN := detector;
  torch_jit_load := load_net;
  torch_load := load_gallery;
  fl_sub := Qcminus;
  fl_mul := Qcmult;
  fl_div := Qcdiv;
  vector_norm := sq_norm;
  makedirs := fun _ _ => Ok tt;
  mkstemp := fun dir suffix k m =>
    exist _ (temp_name dir suffix k m) (temp_name_fresh dir suffix k m);
  sqs_accepts := fun _ body => bool_decide (body <> EmptyString)
|}.

(** Inputs for the doubles. *)
Definition picture (h w : nat) (v : Byte.byte) : bytes :=
  (replicate h Byte.x01 ++ Byte.x00 :: replicate w Byte.x01
     ++ [Byte.x00; v])%list.

Definition inbound (pic : bytes) (request_id filename : string) : bytes :=
  String.list_byte_of_string
    ("encoded=" +:+ String.string_of_list_byte pic +:+ ";request_id="
     +:+ request_id +:+ ";filename=" +:+ filename).

Definition empty_world : World := mk_world ∅ [] [].

(** A gallery that holds one reference vector under two labels. *)
Definition twin : vec := [Q2Qc 1; Q2Qc 1; Q2Qc 1].
Definition twin_gallery : list vec := [twin; twin].
Definition twin_names : list string := ["alice"; "bob"].

Definition flat : tensor :=
  mk_arr (3, 1, 2)%nat (fun c i j => Qc_of_Z 7).

(** Work-queue records: a dark face, a body that does not parse, a bright
    face.  The crop the network sees is the picture's brightness over 255. *)
Definition work_record (request_id : string) (pic : bytes) : json :=
  JObj [("body", JStr ("request_id=" +:+ request_id +:+ ";face="
                        +:+ String.string_of_list_byte pic))].

Definition batch_records : list json :=
  [work_record "r1" (picture 2 2 Byte.xc8);
   JObj [("body", JStr "not a document")];
   work_record "r3" (picture 2 2 Byte.x0a)].

Definition batch : json := JObj [("Records", JArr batch_records)].

(** The Lambda process before its first invocation. *)
Definition cold_start : Lambda :=
  mk_lambda empty_world FaceRecognition_init None 0.

(** One record with a filename in its body and the same record without. *)
Definition named_record : json :=
  JObj [("body", JStr ("request_id=r1;filename=a.jpg;face="
                        +:+ String.string_of_list_byte
                              (picture 2 2 Byte.xc8)))].
Definition unnamed_record : json := work_record "r1" (picture 2 2 Byte.xc8).

(** The crop the detector of the double returns for brightness [v]. *)
Definition crop (v : Z) : tensor :=
  mk_arr (3, 240, 240)%nat
    (fun c i j => Qc_of_Z (v + Z.of_nat (c + i + j)) / Q2Qc 128)%Qc.

(** The doubles with a queue service that rejects every message. *)
Definition E_down : Externals := {|
  getenv := getenv E;
  utf8_decode := utf8_decode E;
  json_loads := json_loads E;
  json_dumps := json_dumps E;
  b64decode := b64decode E;
  b64encode := b64encode E;
  image_open := image_open E;
  image_save := image_save E;
  MTCNN := MTCNN E;
  torch_jit_load := torch_jit_load E;
  torch_load := torch_load E;
  fl_sub := fl_sub E;
  fl_mul := fl_mul E;
  fl_div := fl_div E;
  vector_norm := vector_norm E;
  makedirs := makedirs E;
  mkstemp := mkstemp E;
  sqs_accepts := fun _ _ => false
|}.

(** The doubles with a base64 decoder that insists on padding: text whose
    length is not a multiple of four is refused. *)
Definition dec64_padded (s : string) : result bytes :=
  if decide (String.length s mod 4 = 0)%nat then dec64 s
  else Raise BinasciiError.

Definition E_padded : Externals := {|
  getenv := getenv E;
  utf8_decode := utf8_decode E;
  json_loads := json_loads E;
  json_dumps := json_dumps E;
  b64decode := dec64_padded;
  b64encode := b64encode E;
  image_open := image_open E;
  image_save := image_save E;
  MTCNN := MTCNN E;
  torch_jit_load := torch_jit_load E;
  torch_load := torch_load E;
  fl_sub := fl_sub E;
  fl_mul := fl_mul E;
  fl_div := fl_div E;
  vector_norm := vector_norm E;
  makedirs := makedirs E;
  mkstemp := mkstemp E;
  sqs_accepts := sqs_accepts E
|}.

(** A record whose face text is cut short. *)
Definition truncated_record : json :=
  JObj [("body", JStr "request_id=r9;face=abc")].

End Stub.
(** ** Vocabulary of the properties *)

(** A key of a decoded message is absent or empty. *)
Definition absent_or_empty (o : option json) : Prop :=
  o = None \/ o = Some JNull \/ o = Some (JStr "") \/ o = Some (JArr [])
  \/ o = Some (JObj []).

Definition required_keys : list string := ["encoded"; "request_id"; "filename"].

(** A valid inbound message: it decodes to an object in which [encoded],
    [request_id] and [filename] are present and non-empty, and [encoded] is
    the base64 text of a picture [img]. *)
Definition valid_inbound (E : Externals) (payload : bytes)
    (request_id filename : json) (img : image) : Prop :=
  exists text fields encoded raw,
    utf8_decode E payload = Ok text /\
    json_loads E text = Ok (JObj fields) /\
    assoc "encoded" fields = Some encoded /\ truthy encoded = true /\
    assoc "request_id" fields = Some request_id /\ truthy request_id = true /\
    assoc "filename" fields = Some filename /\ truthy filename = true /\
    base64_b64decode E encoded = Ok raw /\
    image_open E raw = Ok img.

(** The tensor [predict_name] feeds the network. *)
Definition crop_tensor (E : Externals) (img : image) : tensor :=
  transpose_2_0_1
    (amap (fun z => fl_div E (Qc_of_Z z) (Q2Qc 255)) (np_array img)).

(** What [predict_name] answers for a face file holding [data], with the
    network and the gallery as the loaders return them. *)
Definition predict_result (E : Externals) (data : bytes) : result string :=
  net ← torch_jit_load E (MODEL_PATH E);
  saved ← torch_load E (MODEL_WT_PATH E);
  face_pil ← image_open E data;
  emb ← net (crop_tensor E face_pil);
  nearest_name E emb (fst saved) (snd saved).

(** The two fields the handler reads from a work-queue record. *)
Definition record_fields (E : Externals) (record : json)
  : result (json * json) :=
  body ← py_getitem record "body";
  payload ← json_loads_value E body;
  request_id ← py_getitem payload "request_id";
  face_b64 ← py_getitem payload "face";
  Ok (request_id, face_b64).

(** What one work-queue record yields: the body of its result message, or
    the exception that stops it. *)
Definition record_result (E : Externals) (record : json) : result string :=
  '(request_id, face_b64) ← record_fields E record;
  data ← base64_b64decode E face_b64;
  label ← predict_result E data;
  let body := json_dumps E (result_message request_id label) in
  if sqs_accepts E (SQS_RESPONSE_QUEUE_URL E) body then Ok body
  else Raise ClientError.

(** An outcome [r] of the code agrees with the outcome [spec]: the same
    value, or an exception where [spec] has one. *)
Definition agrees {A} (r spec : result A) : Prop :=
  match spec with
  | Ok a => r = Ok a
  | Raise _ => exists e, r = Raise e
  end.

(** A record is malformed when it fails to parse or to process. *)
Definition malformed (E : Externals) (record : json) : bool :=
  match record_result E record with
  | Ok _ => false
  | Raise _ => true
  end.

(** The result message a record puts on the response queue, if any. *)
Definition emission (E : Externals) (record : json) : list (string * string) :=
  match record_result E record with
  | Ok body => [(SQS_RESPONSE_QUEUE_URL E, body)]
  | Raise _ => []
  end.

(** What the [recognizer] holds is what the loaders return. *)
Definition cache_consistent (E : Externals) (r : FaceRecognition) : Prop :=
  (forall net, _resnet r = Some net ->
     torch_jit_load E (MODEL_PATH E) = Ok net) /\
  (forall embeddings names,
     _embeddings r = Some embeddings -> _names r = Some names ->
     torch_load E (MODEL_WT_PATH E) = Ok (embeddings, names)).


(** The subscription of [main] hands each delivered message to the callback,
    one after another. *)
Definition deliver (E : Externals) (deliveries : list (string * bytes))
  : M World unit :=
  for_each deliveries (fun d => on_message_received E d.1 d.2).

(** The face text of a record decodes from base64, if the record gets as far
    as having one. *)
Definition face_decodes (E : Externals) (record : json) : Prop :=
  match record_fields E record with
  | Ok (_, face_b64) => exists data, base64_b64decode E face_b64 = Ok data
  | Raise _ => True
  end.

(** The temporary file of the last record that bound one is gone. *)
Definition bound_path_released (p : Lambda) : Prop :=
  forall path, face_path p = Some path -> fs (world p) !! path = None.

(** The file that holds the detected crop. *)
Definition crop_path (E : Externals) : string :=
  os_path_join (TMP_DIR E) "detected_face.jpg".



(** What the Euclidean norm guarantees however it is rounded: it is never
    negative, and it is zero on a vector of zeros. *)
Record norm_contract (E : Externals) : Prop := {
  norm_nonneg : forall v, (Q2Qc 0 <= vector_norm E v)%Qc;
  norm_zero : forall v, Forall (fun x => x = Q2Qc 0) v ->
                        vector_norm E v = Q2Qc 0
}.

(** The exact squared Euclidean distance of two vectors of one length: the
    sum of the squares of the exact differences. *)
Definition sum_sq (v : list Qc) : Qc :=
  foldr Qcplus (Q2Qc 0) ((fun x => x * x)%Qc <$> v).
Definition sq_dist (a b : vec) : Qc :=
  sum_sq ((fun xy => xy.1 - xy.2)%Qc <$> zip a b).

(** How close the float32 difference and norm are to the exact ones,
    wherever no overflow or underflow occurs: with relative error at most
    delta each, the squares are within the factors [lo_f] = (1 - delta)^2
    and [hi_f] = (1 + delta)^2 of the exact squares.  For the norm this is
    stated on the order it gives: a vector whose norm is no greater has a
    sum of squares no greater, up to the factors.  Exact arithmetic is the
    case [lo_f] = [hi_f] = 1. *)
Record accuracy_contract (E : Externals) (lo_f hi_f : Qc) : Prop := {
  lo_f_nonneg : (Q2Qc 0 <= lo_f)%Qc;
  hi_f_nonneg : (Q2Qc 0 <= hi_f)%Qc;
  sub_accurate : forall x y,
    (lo_f * ((x - y) * (x - y)) <= fl_sub E x y * fl_sub E x y)%Qc /\
    (fl_sub E x y * fl_sub E x y <= hi_f * ((x - y) * (x - y)))%Qc;
  norm_accurate : forall v1 v2,
    (vector_norm E v1 <= vector_norm E v2)%Qc ->
    (lo_f * sum_sq v1 <= hi_f * sum_sq v2)%Qc
}.

(** The path of the temporary file that the next record gets. *)
Definition temp_path (E : Externals) (p : Lambda) : string :=
  proj1_sig (mkstemp E "/tmp" ".jpg" (temp_files p) (fs (world p))).

(** ** Facts about arrays and the normalisation *)

Lemma fmap_list_bind {A B C} (f : B -> C) (g : A -> list B) (h : A -> list C)
    (l : list A) :
  (forall x, f <$> g x = h x) -> f <$> (l ≫= g) = l ≫= h.
Proof.
  intros Hgh. induction l as [|x l IH]; [done|].
  change (f <$> (g x ++ (l ≫= g))%list = (h x ++ (l ≫= h))%list).
  by rewrite fmap_app, IH, Hgh.
Qed.

Lemma entries_amap {A B} (f : A -> B) (a : arr A) :
  entries (amap f a) = f <$> entries a.
Proof.
  unfold entries, amap. simpl. destruct (shape a) as [[n0 n1] n2].
  symmetry. apply fmap_list_bind. intros i.
  apply fmap_list_bind. intros j.
  apply fmap_list_bind. intros k. done.
Qed.

Lemma elem_of_entries {A} (a : arr A) n0 n1 n2 x :
  shape a = (n0, n1, n2) ->
  x ∈ entries a <->
  exists i j k, (i < n0)%nat /\ (j < n1)%nat /\ (k < n2)%nat /\ x = at_ a i j k.
Proof.
  intros Hs. unfold entries. rewrite Hs. split.
  - intros H. apply list_elem_of_bind in H as (i & H & Hi).
    apply list_elem_of_bind in H as (j & H & Hj).
    apply list_elem_of_bind in H as (k & H & Hk).
    apply list_elem_of_singleton in H.
    apply elem_of_seq in Hi, Hj, Hk. exists i, j, k. repeat split; [lia..|done].
  - intros (i & j & k & Hi & Hj & Hk & ->).
    apply list_elem_of_bind. exists i. split; [|apply elem_of_seq; lia].
    apply list_elem_of_bind. exists j. split; [|apply elem_of_seq; lia].
    apply list_elem_of_bind. exists k. split; [|apply elem_of_seq; lia].
    by apply list_elem_of_singleton.
Qed.

Lemma foldl_Qc_min_spec (l : list Qc) (x : Qc) :
  foldl Qc_min x l ∈ x :: l /\ forall y, y ∈ x :: l -> (foldl Qc_min x l <= y)%Qc.
Proof.
  revert x. induction l as [|z l IH]; intros x; simpl.
  - split; [by left|]. intros y Hy. apply list_elem_of_singleton in Hy as ->.
    apply Qcle_refl.
  - destruct (IH (Qc_min x z)) as [Hin Hle]. split.
    + apply elem_of_cons in Hin as [->|Hin].
      * unfold Qc_min. case_decide; [right; left|left]; done.
      * right; right; done.
    + intros y Hy.
      assert (Qc_min x z <= x /\ Qc_min x z <= z)%Qc as [Hx Hz].
      { unfold Qc_min. case_decide as Hd.
        - split; [by apply Qclt_le_weak | apply Qcle_refl].
        - split; [apply Qcle_refl | by apply Qcnot_lt_le]. }
      apply elem_of_cons in Hy as [->|Hy].
      * eapply Qcle_trans; [apply Hle; by left | done].
      * apply elem_of_cons in Hy as [->|Hy].
        -- eapply Qcle_trans; [apply Hle; by left | done].
        -- apply Hle. by right.
Qed.


Lemma tensor_min_spec (t : tensor) lo :
  tensor_min t = Ok lo ->
  lo ∈ entries t /\ forall y, y ∈ entries t -> (lo <= y)%Qc.
Proof.
  unfold tensor_min. destruct (entries t) as [|x l]; [done|].
  intros [= <-]. apply foldl_Qc_min_spec.
Qed.


Lemma tensor_min_is_Ok (t : tensor) x :
  x ∈ entries t -> exists lo, tensor_min t = Ok lo.
Proof.
  unfold tensor_min. destruct (entries t); [by intros ?%elem_of_nil | eauto].
Qed.

Lemma tensor_max_is_Ok (t : tensor) x :
  x ∈ entries t -> exists hi, tensor_max t = Ok hi.
Proof.
  unfold tensor_max. destruct (entries t); [by intros ?%elem_of_nil | eauto].
Qed.






(** [normalize_face] returns an h x w RGB image on every crop of 3 x h x w
    entries that has an entry, whatever the rounding. *)
Lemma normalize_face_shape (E : Externals) (t : tensor) h w lo :
  shape t = (3, h, w) -> tensor_min t = Ok lo ->
  exists img, normalize_face E t = Ok img /\ shape img = (h, w, 3).
Proof.
  intros Hs Hlo. unfold normalize_face. rewrite Hlo. simpl.
  destruct (tensor_min_spec t lo Hlo) as [Hin _].
  set (face_img := amap (fun x => fl_sub E x lo) t).
  assert (fl_sub E lo lo ∈ entries face_img) as Hin'.
  { unfold face_img. rewrite entries_amap. apply list_elem_of_fmap.
    by exists lo. }
  destruct (tensor_max_is_Ok _ _ Hin') as [hi' ->].
  destruct (tensor_min_is_Ok _ _ Hin') as [lo' ->]. simpl.
  destruct (decide (Q2Qc 0 < fl_sub E hi' lo')%Qc) as [Hpos|Hnpos].
  - unfold tensor_div. rewrite decide_False.
    2:{ intros Hz. rewrite Hz in Hpos. by apply Qclt_not_eq in Hpos. }
    simpl. unfold Image_fromarray, permute_1_2_0, tensor_byte, amap. simpl.
    rewrite Hs. simpl. eexists. split; reflexivity.
  - simpl. unfold Image_fromarray, permute_1_2_0, tensor_byte, amap. simpl.
    rewrite Hs. simpl. eexists. split; reflexivity.
Qed.



(** With three channels [Image.fromarray] hands the array back; with four
    it takes the bytes three at a time: the second pixel starts at the
    fourth byte of the first. *)
Lemma Image_fromarray_channels (a : arr Z) h w :
  (shape a = (h, w, 3) -> Image_fromarray a = Ok a) /\
  (shape a = (h, w, 4) -> (1 < w)%nat ->
   exists img, Image_fromarray a = Ok img /\ shape img = (h, w, 3) /\
               at_ img 0 0 0 = at_ a 0 0 0 /\ at_ img 0 1 0 = at_ a 0 0 3) /\
  (forall c, shape a = (h, w, c) -> (c < 3)%nat ->
   Image_fromarray a = Raise ValueError).
Proof.
  unfold Image_fromarray. split; [|split].
  - by intros ->.
  - intros -> Hw. simpl. eexists. split; [reflexivity|]. split; [done|].
    simpl. split.
    + rewrite Nat.Div0.div_0_l, Nat.Div0.mod_0_l. done.
    + replace (0 * w + 1)%nat with 1%nat by lia. simpl.
      rewrite Nat.div_small by lia. rewrite Nat.mod_small by lia. done.
  - intros c -> Hc. rewrite decide_False by lia. by rewrite decide_False by lia.
Qed.


(** ** The test doubles honour the contracts assumed of the libraries *)

Lemma stub_unary_replicate (n : nat) (rest : bytes) :
  Stub.unary (replicate n Byte.x01 ++ Byte.x00 :: rest)%list
  = (n, Byte.x00 :: rest).
Proof. induction n as [|n IH]; simpl; [done|]. by rewrite IH. Qed.

Lemma stub_codec_keeps_size (im : image) h w :
  shape im = (h, w, 3%nat) ->
  exists im', image_open Stub.E (image_save Stub.E im) = Ok im'
              /\ shape im' = (h, w, 3%nat).
Proof.
  intros Hs. simpl. unfold Stub.save_picture, Stub.open_picture. rewrite Hs.
  rewrite stub_unary_replicate.
  rewrite (stub_unary_replicate w [Stub.byte_of_Z (at_ im 0 0 0)]).
  eexists. split; reflexivity.
Qed.

Lemma stub_b64_roundtrip (data : bytes) :
  b64decode Stub.E (b64encode Stub.E data) = Ok data.
Proof.
  simpl. unfold Stub.dec64, Stub.enc64.
  by rewrite String.list_byte_of_string_of_list_byte.
Qed.

Lemma stub_detector_shape size margin min_face (im : image) t p :
  MTCNN Stub.E size margin min_face im = Ok (Some t, p) ->
  shape t = (3%nat, size, size).
Proof.
  simpl. unfold Stub.detector. destruct (at_ im 0 0 0 =? 255)%Z; [done|].
  by intros [= <- _].
Qed.

(** ** The doubles' arithmetic honours the contracts of rounding *)


Lemma stub_sq_norm_nonneg (v : list Qc) : (Q2Qc 0 <= Stub.sq_norm v)%Qc.
Proof.
  unfold Stub.sq_norm. induction v as [|x v IH]; simpl; [done|].
  replace (Q2Qc 0) with (Q2Qc 0 + Q2Qc 0)%Qc by ring.
  apply Qcplus_le_compat; [|done].
  destruct (decide (x < Q2Qc 0)%Qc) as [Hx|Hx].
  2:{ apply Qcnot_lt_le in Hx. by apply Qcmult_nonneg_nonneg. }
  - apply Qclt_le_weak in Hx.
    replace (x * x)%Qc with ((- x) * (- x))%Qc by ring.
    assert (Q2Qc 0 <= - x)%Qc as Hn.
    { replace (Q2Qc 0) with (- Q2Qc 0)%Qc by ring. by apply Qcopp_le_compat. }
    by apply Qcmult_nonneg_nonneg.
Qed.

Lemma stub_norm_contract : norm_contract Stub.E.
Proof.
  split; simpl.
  - apply stub_sq_norm_nonneg.
  - intros v Hv.
    induction Hv as [|x v -> _ IH]; [done|].
    change (Stub.sq_norm (Q2Qc 0 :: v))
      with (Q2Qc 0 * Q2Qc 0 + Stub.sq_norm v)%Qc.
    rewrite IH. ring.
Qed.

(** ** The list comprehension and the distance *)

Lemma py_list_comp_Ok {A B} (f : A -> result B) (l : list A) (ys : list B) :
  py_list_comp f l = Ok ys <-> Forall2 (fun x y => f x = Ok y) l ys.
Proof.
  revert ys. induction l as [|x l IH]; intros ys; simpl.
  - split; [intros [= <-]; constructor | by intros ->%Forall2_nil_inv_l].
  - destruct (f x) as [y|e] eqn:Hx; simpl.
    + destruct (py_list_comp f l) as [ys'|e] eqn:Hl; simpl.
      * split.
        -- intros [= <-]. constructor; [done|]. by apply IH.
        -- intros H. apply Forall2_cons_inv_l in H as (y' & ys'' & Hy & H & ->).
           apply IH in H. congruence.
      * split; [done|]. intros H.
        apply Forall2_cons_inv_l in H as (y' & ys'' & Hy & H & ->).
        apply IH in H. done.
    + split; [done|]. intros H.
      apply Forall2_cons_inv_l in H as (y' & ys'' & Hy & H & ->). congruence.
Qed.

Lemma py_list_comp_Raise {A B} (f : A -> result B) (l : list A) (e : exn) :
  py_list_comp f l = Raise e -> exists x, x ∈ l /\ f x = Raise e.
Proof.
  induction l as [|x l IH]; simpl; [done|].
  destruct (f x) as [y|e'] eqn:Hx; simpl.
  - destruct (py_list_comp f l) as [ys'|e''] eqn:Hl; simpl; [done|].
    intros [= ->]. destruct (IH eq_refl) as (x' & Hin & Hx').
    exists x'. split; [by right | done].
  - intros [= ->]. exists x. split; [by left | done].
Qed.

Lemma py_list_comp_total {A B} (f : A -> result B) (l : list A) :
  Forall (fun x => exists y, f x = Ok y) l ->
  exists ys, py_list_comp f l = Ok ys.
Proof.
  induction 1 as [|x l [y Hy] _ [ys IH]]; simpl; [eauto|].
  rewrite Hy, IH. simpl. eauto.
Qed.

(** [torch.dist] raises exactly on shapes that do not broadcast, and then a
    [RuntimeError]. *)
Lemma torch_dist_outcomes (E : Externals) (a b : vec) :
  (length a = length b \/ length a = 1%nat \/ length b = 1%nat ->
   exists d, torch_dist E a b = Ok d) /\
  (forall e, torch_dist E a b = Raise e ->
     e = RuntimeError /\ length a <> length b /\ length a <> 1%nat
     /\ length b <> 1%nat).
Proof.
  unfold torch_dist, broadcast. split.
  - intros H. destruct (decide (length a = length b)); [simpl; eauto|].
    destruct a as [|x [|x' a]], b as [|y [|y' b]]; simpl in *; eauto; lia.
  - intros e. destruct (decide (length a = length b)); [done|].
    destruct a as [|x [|x' a]], b as [|y [|y' b]]; simpl in *; try done;
      intros [= <-]; repeat split; lia.
Qed.

(** A vector is at distance zero from itself, and no distance is negative. *)
Lemma torch_dist_self (E : Externals) (a : vec) :
  norm_contract E -> (forall x, fl_sub E x x = Q2Qc 0) ->
  torch_dist E a a = Ok (Q2Qc 0).
Proof.
  intros [_ Hzero] Hsub. unfold torch_dist, broadcast.
  rewrite decide_True by done. simpl. f_equal. apply Hzero.
  apply Forall_fmap. induction a as [|x a IH]; simpl; constructor; [|done].
  simpl. apply Hsub.
Qed.

Lemma torch_dist_nonneg (E : Externals) (a b : vec) (d : Qc) :
  norm_contract E -> torch_dist E a b = Ok d -> (Q2Qc 0 <= d)%Qc.
Proof.
  intros [Hnn _]. unfold torch_dist.
  destruct (broadcast a b); simpl; [|done]. intros [= <-]. apply Hnn.
Qed.

Lemma sum_sq_cons (x : Qc) (v : list Qc) :
  sum_sq (x :: v) = (x * x + sum_sq v)%Qc.
Proof. reflexivity. Qed.

Lemma sum_sq_differences (E : Externals) (lo_f hi_f : Qc)
    (pairs : list (Qc * Qc)) :
  accuracy_contract E lo_f hi_f ->
  (lo_f * sum_sq ((fun xy => xy.1 - xy.2)%Qc <$> pairs)
   <= sum_sq ((fun xy => fl_sub E xy.1 xy.2) <$> pairs))%Qc /\
  (sum_sq ((fun xy => fl_sub E xy.1 xy.2) <$> pairs)
   <= hi_f * sum_sq ((fun xy => xy.1 - xy.2)%Qc <$> pairs))%Qc.
Proof.
  intros Hc. induction pairs as [|[x y] pairs [IHlo IHhi]].
  - simpl. unfold sum_sq. simpl. split.
    + replace (lo_f * Q2Qc 0)%Qc with (Q2Qc 0) by ring. apply Qcle_refl.
    + replace (hi_f * Q2Qc 0)%Qc with (Q2Qc 0) by ring. apply Qcle_refl.
  - rewrite !fmap_cons, !sum_sq_cons. simpl.
    destruct (sub_accurate E lo_f hi_f Hc x y) as [Hlo Hhi]. split.
    + rewrite Qcmult_plus_distr_r. by apply Qcplus_le_compat.
    + rewrite Qcmult_plus_distr_r. by apply Qcplus_le_compat.
Qed.

Lemma torch_dist_same_length (E : Externals) (a b : vec) :
  length a = length b ->
  torch_dist E a b
  = Ok (vector_norm E ((fun xy => fl_sub E xy.1 xy.2) <$> zip a b)).
Proof.
  intros Hlen. unfold torch_dist, broadcast. by rewrite decide_True.
Qed.

(** Of two references of the query's length, the one that [torch.dist] puts
    no farther is no farther in exact squared Euclidean distance, up to the
    accuracy factors. *)
Lemma torch_dist_order (E : Externals) (lo_f hi_f : Qc) (a b b' : vec)
    (d d' : Qc) :
  accuracy_contract E lo_f hi_f ->
  length b = length a -> length b' = length a ->
  torch_dist E a b = Ok d -> torch_dist E a b' = Ok d' -> (d <= d')%Qc ->
  (lo_f * lo_f * sq_dist a b <= hi_f * hi_f * sq_dist a b')%Qc.
Proof.
  intros Hc Hb Hb' Hd Hd' Hle.
  rewrite torch_dist_same_length in Hd by done.
  rewrite torch_dist_same_length in Hd' by done.
  injection Hd as <-. injection Hd' as <-.
  pose proof (norm_accurate E lo_f hi_f Hc _ _ Hle) as Hn.
  destruct (sum_sq_differences E lo_f hi_f (zip a b) Hc) as [H1 _].
  destruct (sum_sq_differences E lo_f hi_f (zip a b') Hc) as [_ H2].
  unfold sq_dist.
  set (S1 := sum_sq ((fun xy => xy.1 - xy.2)%Qc <$> zip a b)) in *.
  set (S2 := sum_sq ((fun xy => xy.1 - xy.2)%Qc <$> zip a b')) in *.
  set (F1 := sum_sq ((fun xy => fl_sub E xy.1 xy.2) <$> zip a b)) in *.
  set (F2 := sum_sq ((fun xy => fl_sub E xy.1 xy.2) <$> zip a b')) in *.
  apply Qcle_trans with (lo_f * F1)%Qc; [|apply Qcle_trans with (hi_f * F2)%Qc].
  - replace (lo_f * lo_f * S1)%Qc with (lo_f * S1 * lo_f)%Qc by ring.
    rewrite (Qcmult_comm lo_f F1).
    apply Qcmult_le_compat_r; [exact H1 | apply (lo_f_nonneg E lo_f hi_f Hc)].
  - exact Hn.
  - replace (hi_f * hi_f * S2)%Qc with (hi_f * S2 * hi_f)%Qc by ring.
    rewrite (Qcmult_comm hi_f F2).
    apply Qcmult_le_compat_r; [exact H2 | apply (hi_f_nonneg E lo_f hi_f Hc)].
Qed.

Lemma stub_accuracy_contract : accuracy_contract Stub.E (Q2Qc 1) (Q2Qc 1).
Proof.
  split; simpl.
  - done.
  - done.
  - intros x y. rewrite Qcmult_1_l. split; apply Qcle_refl.
  - intros v1 v2 H. by rewrite !Qcmult_1_l.
Qed.

(** ** [np.argmin] returns the first index of the least item *)

Lemma argmin_from_spec (l pre : list Qc) (best : Qc) (best_i : nat) :
  pre !! best_i = Some best ->
  (forall j x, pre !! j = Some x -> (best <= x)%Qc) ->
  (forall j x, (j < best_i)%nat -> pre !! j = Some x -> (best < x)%Qc) ->
  exists d,
    (pre ++ l)%list !! argmin_from best best_i (length pre) l = Some d /\
    (forall j x, (pre ++ l)%list !! j = Some x -> (d <= x)%Qc) /\
    (forall j x, (j < argmin_from best best_i (length pre) l)%nat ->
                 (pre ++ l)%list !! j = Some x -> (d < x)%Qc).
Proof.
  revert pre best best_i.
  induction l as [|x rest IH]; intros pre best best_i Hbest Hle Hlt; simpl.
  - rewrite app_nil_r. eauto.
  - assert (Hlen : length (pre ++ [x])%list = S (length pre))
      by (rewrite length_app; simpl; lia).
    replace (pre ++ x :: rest)%list with ((pre ++ [x]) ++ rest)%list
      by (by rewrite <- app_assoc).
    rewrite <- Hlen.
    destruct (decide (x < best)%Qc) as [Hx|Hx].
    + apply IH.
      * by apply list_lookup_middle.
      * intros j y Hj. destruct (decide (j < length pre)%nat) as [Hjl|Hjl].
        -- rewrite lookup_app_l in Hj by done.
           apply Qclt_le_weak. eapply Qclt_le_trans; [done|]. by eapply Hle.
        -- rewrite lookup_app_r in Hj by lia.
           destruct (j - length pre)%nat; simpl in Hj; [|done].
           injection Hj as <-. apply Qcle_refl.
      * intros j y Hjl Hj.
        rewrite lookup_app_l in Hj by lia.
        eapply Qclt_le_trans; [done|]. by eapply Hle.
    + apply Qcnot_lt_le in Hx. apply IH.
      * apply lookup_app_l_Some. done.
      * intros j y Hj. destruct (decide (j < length pre)%nat) as [Hjl|Hjl].
        -- rewrite lookup_app_l in Hj by done. by eapply Hle.
        -- rewrite lookup_app_r in Hj by lia.
           destruct (j - length pre)%nat; simpl in Hj; [|done].
           by injection Hj as <-.
      * intros j y Hjl Hj.
        assert (best_i < length pre)%nat by (by eapply lookup_lt_Some).
        rewrite lookup_app_l in Hj by lia. by eapply Hlt.
Qed.

Lemma np_argmin_spec (l : list Qc) (idx : nat) :
  np_argmin l = Ok idx ->
  exists d,
    l !! idx = Some d /\
    (forall j x, l !! j = Some x -> (d <= x)%Qc) /\
    (forall j x, (j < idx)%nat -> l !! j = Some x -> (d < x)%Qc).
Proof.
  destruct l as [|x rest]; [done|]. simpl. intros [= <-].
  apply (argmin_from_spec rest [x] x 0%nat).
  - done.
  - intros [|j] y Hj; simpl in Hj; [|done]. injection Hj as <-. apply Qcle_refl.
  - intros j y Hj. lia.
Qed.

(** The first index of the least item is what [np.argmin] returns. *)
Lemma np_argmin_first_minimum (l : list Qc) (i : nat) (d : Qc) :
  l !! i = Some d ->
  (forall j x, l !! j = Some x -> (d <= x)%Qc) ->
  (forall j x, (j < i)%nat -> l !! j = Some x -> (d < x)%Qc) ->
  np_argmin l = Ok i.
Proof.
  intros Hi Hle Hlt.
  destruct (np_argmin l) as [idx|e] eqn:Harg.
  2:{ destruct l; [done | discriminate]. }
  destruct (np_argmin_spec l idx Harg) as (d' & Hidx & Hle' & Hlt').
  f_equal. destruct (Nat.lt_trichotomy idx i) as [Hc|[Hc|Hc]]; [|done|].
  - pose proof (Hlt idx d' Hc Hidx) as H1. pose proof (Hle' i d Hi) as H2.
    exfalso. by apply (Qclt_not_le _ _ H1).
  - pose proof (Hlt' i d Hc Hi) as H1. pose proof (Hle idx d' Hidx) as H2.
    exfalso. by apply (Qclt_not_le _ _ H1).
Qed.

(** *** The recognition handler, statement by statement *)

Lemma load_models_frame (E : Externals) (p : Lambda) :
  exists r rc,
    _load_models E p = (r, set_recognizer rc p) /\
    (cache_consistent E (recognizer p) ->
       cache_consistent E rc /\
       match torch_jit_load E (MODEL_PATH E), torch_load E (MODEL_WT_PATH E) with
       | Ok net, Ok saved =>
           r = Ok tt /\
           rc = mk_recognizer (Some net) (Some (fst saved)) (Some (snd saved))
       | _, _ => exists e, r = Raise e
       end).
Proof.
  destruct p as [w [rn em nm] fp].
  unfold _load_models, bind, gets, lift, modify, ret, set_recognizer,
    cache_consistent. simpl.
  destruct rn as [net|]; simpl.
  - destruct em as [em|], nm as [nm|]; simpl.
    1:{ eexists _, _. split; [reflexivity|]. intros [Hnet Hgal].
        split; [done|]. rewrite (Hnet _ eq_refl), (Hgal _ _ eq_refl eq_refl).
        done. }
    all: destruct (torch_load E (MODEL_WT_PATH E)) as [[es ns]|e] eqn:Hl; simpl;
      eexists _, _; (split; [reflexivity|]); intros [Hnet Hgal];
      rewrite (Hnet _ eq_refl); simpl;
      (split; [split; simpl; congruence|]); eauto.
  - destruct (torch_jit_load E (MODEL_PATH E)) as [net|e] eqn:Hj; simpl.
    2:{ eexists _, _. split; [reflexivity|]. intros [Hnet Hgal].
        split; [done|]. eauto. }
    destruct em as [em|], nm as [nm|]; simpl.
    1:{ eexists _, _. split; [reflexivity|]. intros [Hnet Hgal].
        rewrite (Hgal _ _ eq_refl eq_refl). simpl.
        split; [split; simpl; congruence|]. done. }
    all: destruct (torch_load E (MODEL_WT_PATH E)) as [[es ns]|e] eqn:Hl; simpl;
      eexists _, _; (split; [reflexivity|]); intros [Hnet Hgal];
      (split; [split; simpl; congruence|]); eauto.
Qed.
Lemma predict_name_frame (E : Externals) (path : string) (p : Lambda) :
  exists r rc,
    predict_name E path p = (r, set_recognizer rc p) /\
    (forall data,
       cache_consistent E (recognizer p) ->
       fs (world p) !! path = Some data ->
       cache_consistent E rc /\ agrees r (predict_result E data)).
Proof.
  destruct (load_models_frame E p) as (r0 & rc0 & Hrun & Hspec).
  unfold predict_name, bind. rewrite Hrun.
  destruct r0 as [[]|e0].
  2:{ exists (Raise e0), rc0. split; [reflexivity|]. intros data Hc Hf.
      destruct (Hspec Hc) as [Hc' Hr]. split; [done|].
      unfold agrees, predict_result.
      destruct (torch_jit_load E (MODEL_PATH E)) as [net|]; simpl; [|eauto].
      destruct (torch_load E (MODEL_WT_PATH E)) as [saved|]; simpl; [|eauto].
      by destruct Hr as [[=] _]. }
  destruct p as [w rc fp]. unfold in_world, read_file, set_recognizer, set_world,
    lift, gets, raise. simpl.
  destruct (fs w !! path) as [data|] eqn:Hf; simpl.
  2:{ eexists _, _. split; [reflexivity|]. intros data _ [=]. }
  destruct (image_open E data) as [face_pil|e] eqn:Hopen; simpl.
  2:{ eexists _, _. split; [reflexivity|]. intros ? Hc [= <-].
      destruct (Hspec Hc) as [Hc' Hr]. split; [done|].
      unfold agrees, predict_result.
      destruct (torch_jit_load E (MODEL_PATH E)) as [net|]; simpl; [|eauto].
      destruct (torch_load E (MODEL_WT_PATH E)) as [saved|]; simpl; [|eauto].
      rewrite Hopen. simpl. eauto. }
  destruct rc0 as [[net|] [em|] [nm|]]; simpl.
  1:{ destruct (net _) as [emb|e] eqn:Hemb; simpl.
      - eexists _, _. split; [reflexivity|]. intros ? Hc [= <-].
        destruct (Hspec Hc) as [Hc' Hr]. split; [done|].
        unfold agrees, predict_result.
        destruct (torch_jit_load E (MODEL_PATH E)) as [net'|]; simpl;
          [|by destruct Hr as [? [=]]].
        destruct (torch_load E (MODEL_WT_PATH E)) as [saved|]; simpl;
          [|by destruct Hr as [? [=]]].
        destruct Hr as [_ [= -> -> ->]]. rewrite Hopen. simpl.
        unfold crop_tensor. rewrite Hemb. simpl.
        destruct (nearest_name _ _ _ _); eauto.
      - eexists _, _. split; [reflexivity|]. intros ? Hc [= <-].
        destruct (Hspec Hc) as [Hc' Hr]. split; [done|].
        unfold agrees, predict_result.
        destruct (torch_jit_load E (MODEL_PATH E)) as [net'|]; simpl;
          [|by destruct Hr as [? [=]]].
        destruct (torch_load E (MODEL_WT_PATH E)) as [saved|]; simpl;
          [|by destruct Hr as [? [=]]].
        destruct Hr as [_ [= -> -> ->]]. rewrite Hopen. simpl.
        unfold crop_tensor. rewrite Hemb. simpl. eauto. }
  all: eexists _, _; (split; [reflexivity|]); intros ? Hc [= <-];
    destruct (Hspec Hc) as [Hc' Hr]; (split; [done|]);
    destruct (torch_jit_load E (MODEL_PATH E)) as [net'|];
      [|by destruct Hr as [? [=]]];
    destruct (torch_load E (MODEL_WT_PATH E)) as [saved|];
      [|by destruct Hr as [? [=]]];
    by destruct Hr as [_ [=]].
Qed.

Lemma record_cleanup_spec (p : Lambda) :
  record_cleanup p =
    (Ok tt,
     set_world
       (set_fs (fun m => match face_path p with
                         | Some path => delete path m
                         | None => m
                         end)) p).
Proof.
  destruct p as [[m s l] rc [path|]]; [|reflexivity].
  unfold record_cleanup, try_except_OSError, bind, gets, in_world,
    os_path_exists, os_remove, ret, set_world, set_fs. simpl.
  destruct (m !! path) as [data|] eqn:Hf; simpl.
  - by rewrite Hf.
  - by rewrite delete_id.
Qed.

Lemma temp_path_fresh (E : Externals) (p : Lambda) :
  fs (world p) !! temp_path E p = None.
Proof.
  unfold temp_path.
  by destruct (mkstemp E "/tmp" ".jpg" (temp_files p) (fs (world p))).
Qed.

Lemma record_body_spec (E : Externals) (record : json) (p : Lambda) :
  let name := temp_path E p in
  match record_fields E record with
  | Raise e => record_body E record p = (Raise e, p)
  | Ok (request_id, face_b64) =>
      match base64_b64decode E face_b64 with
      | Raise e =>
          record_body E record p =
            (Raise e, set_world (set_fs <[name := []]>)
                        (set_temp_files (S (temp_files p)) p))
      | Ok data =>
          exists r rc out,
            record_body E record p =
              (r, mk_lambda
                    (mk_world (<[name := data]> (fs (world p)))
                       (sent (world p) ++ out) (logged (world p)))
                    rc (Some name) (S (temp_files p))) /\
            (cache_consistent E (recognizer p) ->
               cache_consistent E rc /\
               match record_result E record with
               | Ok body =>
                   r = Ok tt /\ out = [(SQS_RESPONSE_QUEUE_URL E, body)]
               | Raise _ => (exists e, r = Raise e) /\ out = []
               end)
      end
  end.
Proof.
  intros name. destruct p as [[m s l] rc0 fp0 k]. unfold temp_path in name.
  simpl in name.
  unfold record_result, record_fields, record_body, NamedTemporaryFile, bind,
    lift, gets, modify, ret, in_world, write_file, sqs_send_message,
    set_face_path, set_temp_files, set_world, set_fs, add_sent.
  simpl. fold name.
  destruct (py_getitem record "body") as [body|e]; simpl; [|done].
  destruct (json_loads_value E body) as [payload|e]; simpl; [|done].
  destruct (py_getitem payload "request_id") as [request_id|e]; simpl; [|done].
  destruct (py_getitem payload "face") as [face_b64|e]; simpl; [|done].
  destruct (base64_b64decode E face_b64) as [data|e]; simpl; [|done].
  match goal with |- context [predict_name E name ?q] =>
    destruct (predict_name_frame E name q) as (r & rc & Hrun & Hspec) end.
  rewrite Hrun. unfold set_recognizer. simpl.
  rewrite insert_insert_eq.
  simpl in Hspec. specialize (Hspec data).
  rewrite lookup_insert_eq in Hspec.
  destruct r as [label|e]; simpl.
  - destruct (sqs_accepts E _ _) eqn:Hacc; simpl.
    + eexists (Ok tt), rc, [_]. split; [reflexivity|]. intros Hc.
      destruct (Hspec Hc eq_refl) as [Hc' Hr]. split; [done|].
      unfold agrees in Hr.
      destruct (predict_result E data) as [label'|]; simpl;
        [|by destruct Hr as [? [=]]].
      injection Hr as ->. by rewrite Hacc.
    + eexists (Raise ClientError), rc, []. rewrite app_nil_r.
      split; [reflexivity|]. intros Hc.
      destruct (Hspec Hc eq_refl) as [Hc' Hr]. split; [done|].
      unfold agrees in Hr.
      destruct (predict_result E data) as [label'|]; simpl;
        [|by destruct Hr as [? [=]]].
      injection Hr as ->. rewrite Hacc. eauto.
  - eexists (Raise e), rc, []. rewrite app_nil_r.
    split; [reflexivity|]. intros Hc.
    destruct (Hspec Hc eq_refl) as [Hc' Hr]. split; [done|].
    unfold agrees in Hr.
    destruct (predict_result E data) as [label'|]; simpl; [done|]. eauto.
Qed.

Lemma process_record_spec (E : Externals) (record : json) (p : Lambda) :
  cache_consistent E (recognizer p) ->
  exists p',
    process_record E record p = (Ok tt, p') /\
    cache_consistent E (recognizer p') /\
    sent (world p') = (sent (world p) ++ emission E record)%list.
Proof.
  intros Hc. pose proof (record_body_spec E record p) as Hbody.
  unfold process_record, try_finally, try_except, emission, record_result.
  simpl in Hbody.
  destruct (record_fields E record) as [[request_id face_b64]|e] eqn:Hfields;
    simpl.
  2:{ rewrite Hbody. unfold in_world, logging, modify. simpl.
      rewrite record_cleanup_spec. eexists. split; [reflexivity|].
      simpl. by rewrite app_nil_r. }
  destruct (base64_b64decode E face_b64) as [data|e] eqn:Hdata; simpl.
  2:{ rewrite Hbody. unfold in_world, logging, modify. simpl.
      rewrite record_cleanup_spec. eexists. split; [reflexivity|].
      simpl. by rewrite app_nil_r. }
  destruct Hbody as (r & rc & out & Hrun & Hspec).
  destruct (Hspec Hc) as [Hc' Hout]. rewrite Hrun.
  unfold record_result in Hout. rewrite Hfields in Hout. simpl in Hout.
  rewrite Hdata in Hout. simpl in Hout.
  destruct (predict_result E data) as [label|e]; simpl in *.
  - destruct (sqs_accepts E _ _); simpl in *.
    + destruct Hout as [-> ->]. rewrite record_cleanup_spec.
      eexists. split; [reflexivity|]. done.
    + destruct Hout as [[e ->] ->].
      unfold in_world, logging, modify. simpl.
      rewrite record_cleanup_spec. eexists. split; [reflexivity|]. done.
  - destruct Hout as [[e' ->] ->].
    unfold in_world, logging, modify. simpl.
    rewrite record_cleanup_spec. eexists. split; [reflexivity|]. done.
Qed.

Lemma for_each_process_record (E : Externals) (records : list json) :
  forall p,
    cache_consistent E (recognizer p) ->
    exists p',
      for_each records (process_record E) p = (Ok tt, p') /\
      cache_consistent E (recognizer p') /\
      sent (world p') = (sent (world p) ++ flat_map (emission E) records)%list.
Proof.
  induction records as [|record records IH]; intros p Hc; simpl.
  - exists p. unfold ret. by rewrite app_nil_r.
  - destruct (process_record_spec E record p Hc) as (p1 & Hrun & Hc1 & Hs1).
    destruct (IH p1 Hc1) as (p2 & Hrest & Hc2 & Hs2).
    exists p2. unfold bind. rewrite Hrun, Hrest.
    split; [done|]. split; [done|]. by rewrite Hs2, Hs1, <- app_assoc.
Qed.

Lemma emission_count (E : Externals) (records : list json) :
  (length (flat_map (emission E) records)
   + length (List.filter (malformed E) records) = length records)%nat.
Proof.
  induction records as [|record records IH]; simpl; [done|].
  rewrite length_app. unfold emission at 1, malformed at 1.
  destruct (record_result E record); simpl; lia.
Qed.

Lemma emission_shape (E : Externals) (record : json) :
  if malformed E record then emission E record = []
  else exists body, emission E record = [(SQS_RESPONSE_QUEUE_URL E, body)].
Proof.
  unfold malformed, emission. destruct (record_result E record); eauto.
Qed.

Lemma lambda_handler_run (E : Externals) fields records p :
  default (JArr []) (assoc "Records" fields) = JArr records ->
  cache_consistent E (recognizer p) ->
  exists p',
    lambda_handler E (JObj fields) p = (Ok (success_envelope E), p') /\
    cache_consistent E (recognizer p') /\
    sent (world p') = (sent (world p) ++ flat_map (emission E) records)%list.
Proof.
  intros Hrecords Hc.
  destruct (for_each_process_record E records (set_face_path None p) Hc)
    as (p' & Hrun & Hc' & Hs).
  exists p'. unfold lambda_handler, bind, modify, lift, ret. simpl.
  rewrite Hrecords. simpl. rewrite Hrun. done.
Qed.


Lemma record_fields_agree (E : Externals) record1 record2 s1 s2 m1 m2 :
  py_getitem record1 "body" = Ok (JStr s1) ->
  json_loads E s1 = Ok (JObj m1) ->
  py_getitem record2 "body" = Ok (JStr s2) ->
  json_loads E s2 = Ok (JObj m2) ->
  (forall k, k <> "filename" -> assoc k m1 = assoc k m2) ->
  record_fields E record1 = record_fields E record2.
Proof.
  intros Hb1 Hp1 Hb2 Hp2 Hsame. unfold record_fields.
  rewrite Hb1, Hb2. simpl. rewrite Hp1, Hp2. simpl.
  by rewrite (Hsame "request_id"), (Hsame "face").
Qed.


Lemma process_record_fs (E : Externals) (record : json) (p : Lambda)
    request_id face_b64 data :
  record_fields E record = Ok (request_id, face_b64) ->
  base64_b64decode E face_b64 = Ok data ->
  exists r p1 p',
    record_body E record p = (r, p1) /\
    fs (world p1)
      = <[temp_path E p := data]> (fs (world p)) /\
    process_record E record p = (Ok tt, p') /\
    face_path p' = Some (temp_path E p) /\
    fs (world p')
      = delete (temp_path E p) (fs (world p)).
Proof.
  intros Hfields Hdata. pose proof (record_body_spec E record p) as Hbody.
  simpl in Hbody. rewrite Hfields, Hdata in Hbody.
  destruct Hbody as (r & rc & out & Hrun & _).
  unfold process_record, try_finally, try_except. rewrite Hrun.
  destruct r as [[]|e].
  - eexists _, _, _. split; [reflexivity|]. split; [reflexivity|].
    rewrite record_cleanup_spec. split; [reflexivity|]. simpl.
    by rewrite delete_insert_eq.
  - eexists _, _, _. split; [reflexivity|]. split; [reflexivity|].
    unfold in_world, logging, modify. simpl. rewrite record_cleanup_spec.
    split; [reflexivity|]. simpl. by rewrite delete_insert_eq.
Qed.

Lemma process_record_decode_fails (E : Externals) (record : json) (p : Lambda)
    request_id face_b64 e :
  record_fields E record = Ok (request_id, face_b64) ->
  base64_b64decode E face_b64 = Raise e ->
  face_path p = None ->
  exists p',
    process_record E record p = (Ok tt, p') /\
    fs (world p')
      = <[temp_path E p := []]> (fs (world p)).
Proof.
  intros Hfields Hdata Hfp. pose proof (record_body_spec E record p) as Hbody.
  simpl in Hbody. rewrite Hfields, Hdata in Hbody.
  unfold process_record, try_finally, try_except. rewrite Hbody.
  unfold in_world, logging, modify. simpl. rewrite record_cleanup_spec.
  eexists. split; [reflexivity|]. simpl. by rewrite Hfp.
Qed.

Lemma stub_crop_normalizes (E : Externals) (v : Z) :
  exists face_pil,
    normalize_face E (Stub.crop v) = Ok face_pil /\
    shape face_pil = (240, 240, 3)%nat.
Proof.
  set (t := Stub.crop v).
  assert (shape t = (3, 240, 240)%nat) as Hs by reflexivity.
  assert (exists lo, tensor_min t = Ok lo) as [lo Hlo].
  { apply (tensor_min_is_Ok _ (at_ t 0 0 0)).
    apply (elem_of_entries _ _ _ _ _ Hs). exists 0%nat, 0%nat, 0%nat.
    repeat split; lia. }
  exact (normalize_face_shape E t _ _ lo Hs Hlo).
Qed.

(** ** Properties of the ingestion stage *)

Lemma absent_or_empty_falsy o :
  absent_or_empty o -> truthy (default JNull o) = false.
Proof. intros [->|[->|[->|[->| ->]]]]; reflexivity. Qed.

(** C3. When the decoded message is an object in which one of the keys
    encoded, request_id, filename is absent or empty (null, the empty string,
    the empty list or the empty object), the handler returns normally, sends
    nothing on the request queue or on the response queue, writes no file,
    and logs one warning after the line that announces the message. *)
Theorem missing_key_dropped (E : Externals) topic payload text fields k w :
  utf8_decode E payload = Ok text ->
  json_loads E text = Ok (JObj fields) ->
  k ∈ required_keys ->
  absent_or_empty (assoc k fields) ->
  on_message_received E topic payload w =
    (Ok tt,
     mk_world (fs w) (sent w)
       (logged w ++
          [mk_log INFO ("MQTT message on '" +:+ topic +:+ "'") None;
           mk_log WARNING
             "Invalid payload; required keys: encoded, request_id, filename"
             None])).
Proof.
  intros Hd Hp Hk Hf. apply absent_or_empty_falsy in Hf.
  unfold on_message_received, bind, try_except, lift, logging, modify.
  simpl. rewrite Hd, Hp. simpl.
  assert (negb (truthy (default JNull (assoc "encoded" fields)))
          || negb (truthy (default JNull (assoc "request_id" fields)))
          || negb (truthy (default JNull (assoc "filename" fields))) = true) as ->.
  { unfold required_keys in Hk. rewrite !elem_of_cons in Hk.
    destruct Hk as [->|[->|[->|Hk]]]; [| | |by apply elem_of_nil in Hk];
      rewrite Hf; simpl; rewrite ?orb_true_r; reflexivity. }
  unfold add_log. simpl. rewrite <- app_assoc. reflexivity.
Qed.

Lemma missing_key_dropped_witness :
  absent_or_empty (assoc "encoded" [("request_id", JStr "r1");
                                    ("filename", JStr "a.jpg")]) /\
  sent (on_message_received Stub.E "clients/thing"
          (String.list_byte_of_string "request_id=r1;filename=a.jpg")
          Stub.empty_world).2 = [].
Proof.
  split; [by left|].
  rewrite (missing_key_dropped Stub.E "clients/thing"
             (String.list_byte_of_string "request_id=r1;filename=a.jpg")
             "request_id=r1;filename=a.jpg"
             [("request_id", JStr "r1"); ("filename", JStr "a.jpg")]
             "encoded" Stub.empty_world);
    [reflexivity | reflexivity | reflexivity | by left | by left].
Defined.



Ltac run_handler :=
  unfold on_message_received, detect_face_to_file, bind, try_except, lift,
    ret, logging, modify, os_makedirs, write_file, read_file,
    sqs_send_message, py_get, add_log, add_sent, set_fs; simpl.

Lemma on_message_received_face_file (E : Externals) topic payload request_id
    filename img face_tensor prob face_pil w :
  valid_inbound E payload request_id filename img ->
  makedirs E (TMP_DIR E) (fs w) = Ok tt ->
  mtcnn E img = Ok (Some face_tensor, prob) ->
  normalize_face E face_tensor = Ok face_pil ->
  exists w',
    on_message_received E topic payload w = (Ok tt, w') /\
    fs w' = <[os_path_join (TMP_DIR E) "detected_face.jpg"
              := image_save E face_pil]> (fs w).
Proof.
  intros (text & fields & encoded & raw & Hd & Hp & He & Het & Hr & Hrt & Hf
          & Hft & Hb & Hi) Hmk Hm Hn.
  run_handler. rewrite Hd, Hp. simpl. rewrite He, Hr, Hf. simpl.
  rewrite Het, Hrt, Hft. simpl. rewrite Hb, Hmk, Hi. simpl.
  unfold np_array. rewrite Hm. simpl. rewrite Hmk. simpl.
  rewrite Hn. simpl. rewrite lookup_insert_eq.
  destruct (sqs_accepts E _ _); simpl; eexists; split; reflexivity.
Qed.

(** C2. A valid inbound message whose picture shows no detectable face makes
    the handler send exactly one message, on the response queue: the object
    request_id, filename, result "No-Face" with the input's request_id and
    filename.  Nothing goes to the request queue, no file is written, and
    the lines logged are informational: the path is a normal return, not an
    error.  (The scratch directory can be made and the queue service accepts
    the message.) *)
Theorem no_face_single_result (E : Externals) topic payload request_id
    filename img prob w :
  valid_inbound E payload request_id filename img ->
  makedirs E (os_getenv E "FD_TMP_DIR" "/tmp/faces") (fs w) = Ok tt ->
  mtcnn E img = Ok (None, prob) ->
  sqs_accepts E
    (os_getenv E "SQS_RESPONSE_QUEUE_URL"
       "https://sqs.us-east-1.amazonaws.com/ACCOUNT_ID/your-resp-queue")
    (json_dumps E
       (JObj [("request_id", request_id); ("filename", filename);
              ("result", JStr "No-Face")])) = true ->
  on_message_received E topic payload w =
    (Ok tt,
     mk_world (fs w)
       (sent w ++
          [(os_getenv E "SQS_RESPONSE_QUEUE_URL"
              "https://sqs.us-east-1.amazonaws.com/ACCOUNT_ID/your-resp-queue",
            json_dumps E
              (JObj [("request_id", request_id); ("filename", filename);
                     ("result", JStr "No-Face")]))])
       (logged w ++
          [mk_log INFO ("MQTT message on '" +:+ topic +:+ "'") None;
           mk_log INFO
             "No face detected. Sending 'No-Face' to response queue." None])).
Proof.
  intros (text & fields & encoded & raw & Hd & Hp & He & Het & Hr & Hrt & Hf
          & Hft & Hb & Hi) Hmk Hm Hq.
  run_handler. rewrite Hd, Hp. simpl. rewrite He, Hr, Hf. simpl.
  rewrite Het, Hrt, Hft. simpl. rewrite Hb. simpl.
  unfold TMP_DIR. rewrite Hmk. simpl. rewrite Hi. simpl.
  unfold np_array. rewrite Hm. simpl.
  unfold SQS_RESPONSE_QUEUE_URL, no_face_message. rewrite Hq. simpl.
  rewrite <- app_assoc. reflexivity.
Qed.

Lemma no_face_single_result_witness :
  on_message_received Stub.E "clients/thing"
    (Stub.inbound (Stub.picture 2 2 Byte.xff) "r2" "b.jpg")
    Stub.empty_world
  = (Ok tt,
     mk_world ∅
       [("https://sqs.us-east-1.amazonaws.com/ACCOUNT_ID/your-resp-queue",
         "request_id=r2;filename=b.jpg;result=No-Face")]
       [mk_log INFO "MQTT message on 'clients/thing'" None;
        mk_log INFO
          "No face detected. Sending 'No-Face' to response queue." None]).
Proof.
  apply (no_face_single_result Stub.E "clients/thing"
           (Stub.inbound (Stub.picture 2 2 Byte.xff) "r2" "b.jpg")
           (JStr "r2") (JStr "b.jpg")
           (mk_arr (2, 2, 3)%nat (fun _ _ _ => 255%Z)) None
           Stub.empty_world).
  - eexists _, _, _, _. repeat split; reflexivity.
  - reflexivity.
  - reflexivity.
  - reflexivity.
Defined.

(** C1. A valid inbound message whose picture shows a detectable face makes
    the handler send exactly one message, on the request (work) queue, and
    nothing on the response queue.  The message is the object request_id,
    filename, face with the input's request_id and filename; its face is the
    base64 text of the saved crop, and decoding that text and opening the
    result gives a 240 x 240 RGB image.  (The scratch directory can be made,
    the detector's crop has 3 x 240 x 240 entries, base64 and the picture
    format round-trip, and the queue service accepts the message.) *)
Theorem face_single_work_item (E : Externals) topic payload request_id
    filename img face_tensor prob w :
  valid_inbound E payload request_id filename img ->
  makedirs E (os_getenv E "FD_TMP_DIR" "/tmp/faces") (fs w) = Ok tt ->
  mtcnn E img = Ok (Some face_tensor, prob) ->
  shape face_tensor = (3, 240, 240)%nat ->
  (forall data, b64decode E (b64encode E data) = Ok data) ->
  (forall im h w', shape im = (h, w', 3)%nat ->
     exists im', image_open E (image_save E im) = Ok im'
                 /\ shape im' = (h, w', 3)%nat) ->
  (forall face_pil,
     normalize_face E face_tensor = Ok face_pil ->
     sqs_accepts E
       (os_getenv E "SQS_REQUEST_QUEUE_URL"
          "https://sqs.us-east-1.amazonaws.com/ACCOUNT_ID/your-req-queue")
       (json_dumps E
          (JObj [("request_id", request_id); ("filename", filename);
                 ("face", JStr (b64encode E (image_save E face_pil)))]))
     = true) ->
  exists face_pil crop,
    normalize_face E face_tensor = Ok face_pil /\
    on_message_received E topic payload w =
      (Ok tt,
       mk_world
         (<[os_path_join (os_getenv E "FD_TMP_DIR" "/tmp/faces")
              "detected_face.jpg"
            := image_save E face_pil]> (fs w))
         (sent w ++
            [(os_getenv E "SQS_REQUEST_QUEUE_URL"
                "https://sqs.us-east-1.amazonaws.com/ACCOUNT_ID/your-req-queue",
              json_dumps E
                (JObj [("request_id", request_id); ("filename", filename);
                       ("face",
                        JStr (b64encode E (image_save E face_pil)))]))])
         (logged w ++
            [mk_log INFO ("MQTT message on '" +:+ topic +:+ "'") None;
             mk_log INFO "Face detected; enqueued to request queue." None])) /\
    (b64decode E (b64encode E (image_save E face_pil)) ≫= image_open E)
      = Ok crop /\
    shape crop = (240, 240, 3)%nat.
Proof.
  intros (text & fields & encoded & raw & Hd & Hp & He & Het & Hr & Hrt & Hf
          & Hft & Hb & Hi) Hmk Hm Hs H64 Hcodec Hq.
  assert (exists lo, tensor_min face_tensor = Ok lo) as [lo Hlo].
  { apply (tensor_min_is_Ok _ (at_ face_tensor 0 0 0)).
    apply (elem_of_entries _ _ _ _ _ Hs). exists 0%nat, 0%nat, 0%nat.
    repeat split; lia. }
  destruct (normalize_face_shape E _ _ _ _ Hs Hlo) as (face_pil & Hn & Hsh).
  destruct (Hcodec _ _ _ Hsh) as (crop & Hopen & Hcrop).
  exists face_pil, crop. split; [done|]. split; [|split; [|done]].
  - run_handler. rewrite Hd, Hp. simpl. rewrite He, Hr, Hf. simpl.
    rewrite Het, Hrt, Hft. simpl. rewrite Hb. simpl.
    unfold TMP_DIR. rewrite Hmk. simpl. rewrite Hi. simpl.
    unfold np_array. rewrite Hm. simpl. rewrite Hmk. simpl.
    rewrite Hn. simpl. rewrite lookup_insert_eq.
    unfold SQS_REQUEST_QUEUE_URL, face_message. rewrite (Hq _ Hn). simpl.
    rewrite <- app_assoc. reflexivity.
  - rewrite H64. simpl. done.
Qed.

Lemma face_single_work_item_witness :
  exists face_pil w',
    on_message_received Stub.E "clients/thing"
      (Stub.inbound (Stub.picture 2 2 Byte.xc8) "r1" "a.jpg")
      Stub.empty_world = (Ok tt, w') /\
    sent w'
    = [("https://sqs.us-east-1.amazonaws.com/ACCOUNT_ID/your-req-queue",
        "request_id=r1;filename=a.jpg;face="
        +:+ String.string_of_list_byte (Stub.save_picture face_pil))].
Proof.
  destruct (face_single_work_item Stub.E "clients/thing"
              (Stub.inbound (Stub.picture 2 2 Byte.xc8) "r1" "a.jpg")
              (JStr "r1") (JStr "a.jpg")
              (mk_arr (2, 2, 3)%nat (fun _ _ _ => 200%Z))
              (Stub.crop 200) (Some (Q2Qc 1)) Stub.empty_world)
    as (face_pil & crop & _ & Hrun & _).
  - eexists _, _, _, _. repeat split; reflexivity.
  - reflexivity.
  - reflexivity.
  - reflexivity.
  - apply stub_b64_roundtrip.
  - apply stub_codec_keeps_size.
  - intros face_pil _. reflexivity.
  - exists face_pil. eexists. split; [exact Hrun|]. reflexivity.
Defined.

Ltac case_external :=
  match goal with
  | |- context [match ?x with Ok _ => _ | Raise _ => _ end] =>
      destruct x eqn:?; simpl
  | |- context [match ?x with Some _ => _ | None => _ end] =>
      destruct x eqn:?; simpl
  | |- context [if ?b then _ else _] => destruct b eqn:?; simpl
  end.

(** In two worlds in which making the scratch directory has the same
    outcome, a delivery has the same outcome. *)
Lemma on_message_received_same (E : Externals) topic payload w1 w2 :
  makedirs E (TMP_DIR E) (fs w1) = makedirs E (TMP_DIR E) (fs w2) ->
  exists out lines w1' w2',
    on_message_received E topic payload w1 = (Ok tt, w1') /\
    on_message_received E topic payload w2 = (Ok tt, w2') /\
    sent w1' = (sent w1 ++ out)%list /\ sent w2' = (sent w2 ++ out)%list /\
    logged w1' = (logged w1 ++ lines)%list /\
    logged w2' = (logged w2 ++ lines)%list /\
    (length out <= 1)%nat.
Proof.
  intros Hmk. run_handler. unfold np_array.
  unfold TMP_DIR, os_getenv in *. simpl in *.
  repeat (rewrite ?lookup_insert_eq, ?Hmk; case_external);
    rewrite ?lookup_insert_eq; simpl;
    (eexists _, _, _, _; split; [reflexivity|]; split; [reflexivity|];
     simpl; rewrite <- ?app_assoc; repeat split;
     first [reflexivity | symmetry; apply app_nil_r | simpl; lia]).
Qed.

(** A delivery returns, and the only file it can touch is the crop file. *)
Lemma on_message_received_fs (E : Externals) topic payload w :
  exists w',
    on_message_received E topic payload w = (Ok tt, w') /\
    (fs w' = fs w \/ exists data, fs w' = <[crop_path E := data]> (fs w)).
Proof.
  run_handler. unfold np_array, crop_path.
  repeat (rewrite ?lookup_insert_eq; case_external);
    rewrite ?lookup_insert_eq; simpl;
    (eexists; split; [reflexivity|]; simpl; eauto).
Qed.

Lemma deliver_makedirs (E : Externals) (others : list (string * bytes)) :
  (forall m data,
     makedirs E (TMP_DIR E) (<[crop_path E := data]> m)
     = makedirs E (TMP_DIR E) m) ->
  forall w, exists w',
    deliver E others w = (Ok tt, w') /\
    makedirs E (TMP_DIR E) (fs w') = makedirs E (TMP_DIR E) (fs w).
Proof.
  intros Hstable. unfold deliver.
  induction others as [|[topic payload] others IH]; intros w; simpl.
  - by exists w.
  - destruct (on_message_received_fs E topic payload w) as (w1 & Hrun & Hfs).
    destruct (IH w1) as (w' & Hrest & Hmk).
    exists w'. unfold bind. rewrite Hrun, Hrest. split; [done|].
    rewrite Hmk. destruct Hfs as [-> | [data ->]]; [done | apply Hstable].
Qed.

(** C8. Redelivery changes nothing.  Deliver a message, then any other
    messages, then the same message again, starting from any world (so
    after any earlier deliveries): every call returns normally, and the
    second delivery appends the same messages to the same queues and the
    same lines to the log as the first, at most one message each time.  The
    handler keeps nothing between runs but the crop file, which it rewrites
    before reading.  (Whether the scratch directory can be made does not
    depend on the crop file.) *)
Theorem redelivery_same_output (E : Externals) topic payload
    (others : list (string * bytes)) (w : World) :
  (forall m data,
     makedirs E (os_getenv E "FD_TMP_DIR" "/tmp/faces")
       (<[os_path_join (os_getenv E "FD_TMP_DIR" "/tmp/faces")
            "detected_face.jpg" := data]> m)
     = makedirs E (os_getenv E "FD_TMP_DIR" "/tmp/faces") m) ->
  exists out lines w1 w2 w3,
    on_message_received E topic payload w = (Ok tt, w1) /\
    deliver E others w1 = (Ok tt, w2) /\
    on_message_received E topic payload w2 = (Ok tt, w3) /\
    sent w1 = (sent w ++ out)%list /\ sent w3 = (sent w2 ++ out)%list /\
    logged w1 = (logged w ++ lines)%list /\
    logged w3 = (logged w2 ++ lines)%list /\
    (length out <= 1)%nat.
Proof.
  intros Hstable.
  destruct (on_message_received_fs E topic payload w) as (w1 & Hrun1 & Hfs1).
  destruct (deliver_makedirs E others Hstable w1) as (w2 & Hrest & Hmk2).
  assert (makedirs E (TMP_DIR E) (fs w) = makedirs E (TMP_DIR E) (fs w2))
    as Hmk.
  { rewrite Hmk2. destruct Hfs1 as [-> | [data ->]]; [done|].
    symmetry. apply Hstable. }
  destruct (on_message_received_same E topic payload w w2 Hmk)
    as (out & lines & w1' & w3 & Hrun1' & Hrun3 & Hs1 & Hs3 & Hl1 & Hl3 & Hlen).
  rewrite Hrun1 in Hrun1'. injection Hrun1' as <-.
  by exists out, lines, w1, w2, w3.
Qed.

Lemma redelivery_same_output_witness :
  exists out lines w1 w2 w3,
    on_message_received Stub.E "clients/thing"
      (Stub.inbound (Stub.picture 2 2 Byte.xff) "r2" "b.jpg")
      Stub.empty_world = (Ok tt, w1) /\
    deliver Stub.E
      [("clients/thing", String.list_byte_of_string "no document")] w1
      = (Ok tt, w2) /\
    on_message_received Stub.E "clients/thing"
      (Stub.inbound (Stub.picture 2 2 Byte.xff) "r2" "b.jpg") w2
      = (Ok tt, w3) /\
    sent w1 = ([] ++ out)%list /\ sent w3 = (sent w2 ++ out)%list /\
    logged w1 = ([] ++ lines)%list /\
    logged w3 = (logged w2 ++ lines)%list /\
    (length out <= 1)%nat.
Proof.
  apply (redelivery_same_output Stub.E "clients/thing"
           (Stub.inbound (Stub.picture 2 2 Byte.xff) "r2" "b.jpg")
           [("clients/thing", String.list_byte_of_string "no document")]
           Stub.empty_world).
  intros m data. reflexivity.
Defined.
(** ** Properties of the recognition stage *)

(** C5 (as amended). The gallery match returns the label stored at the
    first index, in gallery order, whose reference is at least Euclidean
    distance from the query, the distance being what [torch.dist] computes,
    the float32 norm of the float32 differences: every reference is at least
    as far and every earlier one is strictly farther.  In exact terms, for a
    gallery of vectors of the query's shape the reference selected has the
    least sum of squared differences from the query, up to the accuracy
    factors of the float32 operations (exactly the least when they are
    exact).  A query is at distance zero from itself and no distance is
    negative, so for a query equal to the reference at index [i] in such a
    gallery, the label returned is the one at [i] when no earlier reference
    is at distance zero. *)
Theorem gallery_match_first_minimum (E : Externals) (emb : vec)
    (embeddings : list vec) (names : list string) :
  (forall label,
     nearest_name E emb embeddings names = Ok label ->
     exists idx e d,
       embeddings !! idx = Some e /\ names !! idx = Some label /\
       torch_dist E emb e = Ok d /\
       (forall j e', embeddings !! j = Some e' ->
          exists d', torch_dist E emb e' = Ok d' /\ (d <= d')%Qc) /\
       (forall j e', (j < idx)%nat -> embeddings !! j = Some e' ->
          exists d', torch_dist E emb e' = Ok d' /\ (d < d')%Qc) /\
       (forall lo_f hi_f,
          accuracy_contract E lo_f hi_f ->
          Forall (fun e => length e = length emb) embeddings ->
          forall j e', embeddings !! j = Some e' ->
            (lo_f * lo_f * sq_dist emb e
             <= hi_f * hi_f * sq_dist emb e')%Qc)) /\
  (forall i label,
     norm_contract E -> (forall x, fl_sub E x x = Q2Qc 0) ->
     embeddings !! i = Some emb -> names !! i = Some label ->
     Forall (fun e => length e = length emb) embeddings ->
     (forall j e, (j < i)%nat -> embeddings !! j = Some e ->
        torch_dist E emb e <> Ok (Q2Qc 0)) ->
     torch_dist E emb emb = Ok (Q2Qc 0) /\
     nearest_name E emb embeddings names = Ok label).
Proof.
  split.
  - intros label. unfold nearest_name.
    destruct (py_list_comp _ embeddings) as [dists|e] eqn:Hdists; simpl;
      [|done].
    apply py_list_comp_Ok in Hdists.
    destruct (np_argmin dists) as [idx|e] eqn:Harg; simpl; [|done].
    unfold list_getitem. destruct (names !! idx) as [l|] eqn:Hname; [|done].
    intros [= <-].
    destruct (np_argmin_spec _ _ Harg) as (d & Hd & Hle & Hlt).
    destruct (Forall2_lookup_r _ _ _ _ _ Hdists Hd) as (e & He & Hde).
    exists idx, e, d. split; [done|]. split; [done|]. split; [done|].
    split; [|split].
    + intros j e' Hj.
      destruct (Forall2_lookup_l _ _ _ _ _ Hdists Hj) as (d' & Hd' & Hde').
      exists d'. split; [done|]. by apply (Hle j).
    + intros j e' Hji Hj.
      destruct (Forall2_lookup_l _ _ _ _ _ Hdists Hj) as (d' & Hd' & Hde').
      exists d'. split; [done|]. by apply (Hlt j).
    + intros lo_f hi_f Hacc Hshape j e' Hj.
      destruct (Forall2_lookup_l _ _ _ _ _ Hdists Hj) as (d' & Hd' & Hde').
      apply (torch_dist_order E lo_f hi_f emb e e' d d' Hacc); try done.
      * by apply (proj1 (Forall_lookup _ _) Hshape idx).
      * by apply (proj1 (Forall_lookup _ _) Hshape j).
      * by apply (Hle j).
  - intros i label Hnorm Hsub Hi Hname Hshape Hfirst.
    pose proof (torch_dist_self E emb Hnorm Hsub) as Hself.
    split; [done|]. unfold nearest_name.
    destruct (py_list_comp_total (fun e => torch_dist E emb e) embeddings)
      as [dists Hdists].
    { eapply Forall_impl; [exact Hshape|]. intros e He. simpl in He.
      apply (torch_dist_outcomes E emb e). by left. }
    rewrite Hdists. simpl. apply py_list_comp_Ok in Hdists.
    destruct (Forall2_lookup_l _ _ _ _ _ Hdists Hi) as (d0 & Hd0 & Hde0).
    rewrite Hself in Hde0. injection Hde0 as <-.
    rewrite (np_argmin_first_minimum dists i (Q2Qc 0)).
    + simpl. unfold list_getitem. by rewrite Hname.
    + done.
    + intros j x Hj.
      destruct (Forall2_lookup_r _ _ _ _ _ Hdists Hj) as (e & He & Hde).
      by apply (torch_dist_nonneg E emb e).
    + intros j x Hji Hj.
      destruct (Forall2_lookup_r _ _ _ _ _ Hdists Hj) as (e & He & Hde).
      pose proof (torch_dist_nonneg E emb e x Hnorm Hde) as Hnn.
      apply Qcnot_le_lt. intros Hle.
      apply (Hfirst j e Hji He). rewrite Hde. f_equal.
      by apply Qcle_antisym.
Qed.

Lemma gallery_match_first_minimum_witness :
  nearest_name Stub.E [Q2Qc 1; Q2Qc 1; Q2Qc 1]
    [[Q2Qc 0; Q2Qc 0; Q2Qc 0]; [Q2Qc 1; Q2Qc 1; Q2Qc 1]] ["alice"; "bob"]
  = Ok "bob" /\
  exists idx e,
    [[Q2Qc 0; Q2Qc 0; Q2Qc 0]; [Q2Qc 1; Q2Qc 1; Q2Qc 1]] !! idx = Some e /\
    ["alice"; "bob"] !! idx = Some "bob" /\
    forall j e',
      [[Q2Qc 0; Q2Qc 0; Q2Qc 0]; [Q2Qc 1; Q2Qc 1; Q2Qc 1]] !! j = Some e' ->
      (Q2Qc 1 * Q2Qc 1 * sq_dist [Q2Qc 1; Q2Qc 1; Q2Qc 1] e
       <= Q2Qc 1 * Q2Qc 1 * sq_dist [Q2Qc 1; Q2Qc 1; Q2Qc 1] e')%Qc.
Proof.
  assert (Forall (fun e : vec => length e = 3%nat)
            [[Q2Qc 0; Q2Qc 0; Q2Qc 0]; [Q2Qc 1; Q2Qc 1; Q2Qc 1]]) as Hshape.
  { constructor; [reflexivity|]. constructor; [reflexivity|]. constructor. }
  assert (nearest_name Stub.E [Q2Qc 1; Q2Qc 1; Q2Qc 1]
            [[Q2Qc 0; Q2Qc 0; Q2Qc 0]; [Q2Qc 1; Q2Qc 1; Q2Qc 1]]
            ["alice"; "bob"] = Ok "bob") as Hrun.
  { apply (proj2 (gallery_match_first_minimum Stub.E [Q2Qc 1; Q2Qc 1; Q2Qc 1]
                    [[Q2Qc 0; Q2Qc 0; Q2Qc 0]; [Q2Qc 1; Q2Qc 1; Q2Qc 1]]
                    ["alice"; "bob"]) 1%nat "bob").
    - exact stub_norm_contract.
    - intros x. simpl. ring.
    - reflexivity.
    - reflexivity.
    - exact Hshape.
    - intros [|j] e Hj He; [|lia]. simpl in He. injection He as <-.
      intros H. by vm_compute in H. }
  split; [exact Hrun|].
  destruct (proj1 (gallery_match_first_minimum Stub.E [Q2Qc 1; Q2Qc 1; Q2Qc 1]
                     [[Q2Qc 0; Q2Qc 0; Q2Qc 0]; [Q2Qc 1; Q2Qc 1; Q2Qc 1]]
                     ["alice"; "bob"]) "bob" Hrun)
    as (idx & e & d & He & Hname & _ & _ & _ & Hexact).
  exists idx, e. split; [exact He|]. split; [exact Hname|].
  exact (Hexact (Q2Qc 1) (Q2Qc 1) stub_accuracy_contract Hshape).
Defined.

(** The claim as stated fails when a reference vector is in the gallery
    twice: the query equals the reference labelled bob, at index 1, and the
    match answers alice. *)
Lemma exact_match_other_label :
  Stub.twin_gallery !! 1%nat = Some Stub.twin /\
  Stub.twin_names !! 1%nat = Some "bob" /\
  torch_dist Stub.E Stub.twin Stub.twin = Ok (Q2Qc 0) /\
  nearest_name Stub.E Stub.twin Stub.twin_gallery Stub.twin_names
  = Ok "alice".
Proof. repeat split; by vm_compute. Qed.

(** C4. Given a batch of N records of which exactly one is malformed (its
    parse or its processing raises), [lambda_handler] returns normally with
    the fixed envelope: statusCode 200 and, as body, the JSON text of the
    object message "Face recognition completed.".  It puts on the response
    queue one result message for each well-formed record, in order, and
    nothing for the malformed one: N - 1 messages.  (What the recognizer has
    cached is what the loaders return.) *)
Theorem one_bad_record (E : Externals) (fields : list (string * json))
    (records : list json) (p : Lambda) :
  assoc "Records" fields = Some (JArr records) ->
  cache_consistent E (recognizer p) ->
  length (List.filter (malformed E) records) = 1%nat ->
  exists p',
    lambda_handler E (JObj fields) p
      = (Ok (JObj [("statusCode", JInt 200);
                   ("body",
                    JStr (json_dumps E
                            (JObj [("message",
                                    JStr "Face recognition completed.")])))]),
         p') /\
    sent (world p') = (sent (world p) ++ flat_map (emission E) records)%list /\
    length (flat_map (emission E) records) = (length records - 1)%nat /\
    Forall (fun record =>
              if malformed E record then emission E record = []
              else exists body,
                     emission E record = [(SQS_RESPONSE_QUEUE_URL E, body)])
      records.
Proof.
  intros Hrecords Hc Hone.
  destruct (lambda_handler_run E fields records p) as (p' & Hrun & _ & Hs);
    [by rewrite Hrecords | done |].
  exists p'. split; [exact Hrun|]. split; [done|]. split.
  - pose proof (emission_count E records). lia.
  - apply Forall_forall. intros record _. apply emission_shape.
Qed.

Lemma one_bad_record_witness :
  exists p',
    lambda_handler Stub.E Stub.batch Stub.cold_start
      = (Ok (JObj [("statusCode", JInt 200);
                   ("body", JStr "message=Face recognition completed.")]),
         p') /\
    sent (world p')
      = [("https://sqs.us-east-1.amazonaws.com/ACCOUNT_ID/your-resp-queue",
          "request_id=r1;result=bob");
         ("https://sqs.us-east-1.amazonaws.com/ACCOUNT_ID/your-resp-queue",
          "request_id=r3;result=alice")].
Proof.
  destruct (one_bad_record Stub.E [("Records", JArr Stub.batch_records)]
              Stub.batch_records Stub.cold_start)
    as (p' & Hrun & Hsent & _).
  - reflexivity.
  - split; intros; discriminate.
  - by vm_compute.
  - exists p'. split; [exact Hrun|]. rewrite Hsent. by vm_compute.
Defined.

(** C10 (as amended). On an event that is an object with no "Records" key,
    or whose "Records" is the empty list, [lambda_handler] raises nothing
    and returns the fixed envelope: statusCode 200 and, as body, the JSON
    text of the object message "Face recognition completed.".  The world is
    as before: nothing is sent, written or logged. *)
Theorem no_records_no_output (E : Externals) (fields : list (string * json))
    (p : Lambda) :
  assoc "Records" fields = None \/ assoc "Records" fields = Some (JArr []) ->
  exists p',
    lambda_handler E (JObj fields) p
      = (Ok (JObj [("statusCode", JInt 200);
                   ("body",
                    JStr (json_dumps E
                            (JObj [("message",
                                    JStr "Face recognition completed.")])))]),
         p') /\
    world p' = world p /\ recognizer p' = recognizer p.
Proof.
  intros Hrecords. exists (set_face_path None p).
  unfold lambda_handler, bind, modify, lift, ret. simpl.
  by destruct Hrecords as [-> | ->].
Qed.

Lemma no_records_no_output_witness :
  exists p',
    lambda_handler Stub.E (JObj [("source", JStr "test")]) Stub.cold_start
      = (Ok (JObj [("statusCode", JInt 200);
                   ("body", JStr "message=Face recognition completed.")]),
         p') /\
    sent (world p') = [].
Proof.
  destruct (no_records_no_output Stub.E [("source", JStr "test")]
              Stub.cold_start) as (p' & Hrun & Hw & _).
  - by left.
  - exists p'. split; [exact Hrun|]. by rewrite Hw.
Defined.

(** The claim as stated fails on an event that is not an object: the empty
    list holds no "Records" key, and the handler raises on it. *)
Lemma list_event_raises :
  lambda_handler Stub.E (JArr []) Stub.cold_start
  = (Raise AttributeError, Stub.cold_start).
Proof. reflexivity. Qed.

(** C9. Two work-queue records whose bodies parse to objects that agree on
    every key but filename (which either may lack) get the same treatment:
    handed to [lambda_handler] in any two states of the process, each makes
    it return the success envelope and append the same messages to the
    response queue, namely the result message of the record (request_id and
    result) when it is well-formed; one is well-formed exactly when the other
    is, so a record without filename is processed like the one with it. *)
Theorem filename_ignored (E : Externals) record1 record2 s1 s2 m1 m2 p1 p2 :
  py_getitem record1 "body" = Ok (JStr s1) ->
  json_loads E s1 = Ok (JObj m1) ->
  py_getitem record2 "body" = Ok (JStr s2) ->
  json_loads E s2 = Ok (JObj m2) ->
  (forall k, k <> "filename" -> assoc k m1 = assoc k m2) ->
  cache_consistent E (recognizer p1) ->
  cache_consistent E (recognizer p2) ->
  exists out p1' p2',
    lambda_handler E (JObj [("Records", JArr [record1])]) p1
      = (Ok (success_envelope E), p1') /\
    lambda_handler E (JObj [("Records", JArr [record2])]) p2
      = (Ok (success_envelope E), p2') /\
    sent (world p1') = (sent (world p1) ++ out)%list /\
    sent (world p2') = (sent (world p2) ++ out)%list /\
    out = emission E record1 /\
    malformed E record1 = malformed E record2.
Proof.
  intros Hb1 Hp1 Hb2 Hp2 Hsame Hc1 Hc2.
  pose proof (record_fields_agree E _ _ _ _ _ _ Hb1 Hp1 Hb2 Hp2 Hsame) as Hf.
  assert (record_result E record1 = record_result E record2) as Hr.
  { unfold record_result. by rewrite Hf. }
  destruct (lambda_handler_run E [("Records", JArr [record1])] [record1] p1)
    as (p1' & Hrun1 & _ & Hs1); [done..|].
  destruct (lambda_handler_run E [("Records", JArr [record2])] [record2] p2)
    as (p2' & Hrun2 & _ & Hs2); [done..|].
  exists (emission E record1), p1', p2'.
  simpl in Hs1, Hs2. rewrite app_nil_r in Hs1, Hs2.
  split; [done|]. split; [done|]. split; [done|].
  split; [|split; [done|]].
  - rewrite Hs2. unfold emission. by rewrite Hr.
  - unfold malformed. by rewrite Hr.
Qed.

Lemma filename_ignored_witness :
  exists p1' p2',
    lambda_handler Stub.E (JObj [("Records", JArr [Stub.named_record])])
      Stub.cold_start = (Ok (success_envelope Stub.E), p1') /\
    lambda_handler Stub.E (JObj [("Records", JArr [Stub.unnamed_record])])
      Stub.cold_start = (Ok (success_envelope Stub.E), p2') /\
    sent (world p1') = [(SQS_RESPONSE_QUEUE_URL Stub.E,
                         "request_id=r1;result=bob")] /\
    sent (world p2') = sent (world p1').
Proof.
  destruct (filename_ignored Stub.E Stub.named_record Stub.unnamed_record
              _ _ _ _ Stub.cold_start Stub.cold_start
              eq_refl eq_refl eq_refl eq_refl)
    as (out & p1' & p2' & Hrun1 & Hrun2 & Hs1 & Hs2 & Hout & _).
  - intros k Hk. simpl. repeat case_decide; congruence.
  - split; intros; discriminate.
  - split; intros; discriminate.
  - exists p1', p2'. split; [exact Hrun1|]. split; [exact Hrun2|].
    rewrite Hs2, Hs1, Hout. split; by vm_compute.
Defined.

(** ** Temporary files, in both stages *)

(** C7 (as amended). In the recognition stage a record whose face field
    decodes from base64 has its face bytes written to a temporary file whose
    name no existing file has; when the record's iteration ends, whether
    recognition and sending succeeded or raised, that file is gone again and
    the scratch area is as it was before the record.  In the ingestion stage
    a message with a detectable face has its crop written to the one fixed
    path detected_face.jpg under the scratch directory, whatever the
    message, and the file is still there when the handler returns.  (The
    scratch directory of the ingestion stage can be made.) *)
Theorem temp_file_released_once_bound (E : Externals) :
  (forall record p request_id face_b64 data,
     record_fields E record = Ok (request_id, face_b64) ->
     base64_b64decode E face_b64 = Ok data ->
     exists name r p1 p',
       fs (world p) !! name = None /\
       record_body E record p = (r, p1) /\
       fs (world p1) = <[name := data]> (fs (world p)) /\
       process_record E record p = (Ok tt, p') /\
       face_path p' = Some name /\
       fs (world p') = fs (world p)) /\
  (forall topic payload request_id filename img face_tensor prob face_pil w,
     valid_inbound E payload request_id filename img ->
     makedirs E (os_getenv E "FD_TMP_DIR" "/tmp/faces") (fs w) = Ok tt ->
     mtcnn E img = Ok (Some face_tensor, prob) ->
     normalize_face E face_tensor = Ok face_pil ->
     exists w',
       on_message_received E topic payload w = (Ok tt, w') /\
       fs w' = <[os_path_join (os_getenv E "FD_TMP_DIR" "/tmp/faces")
                   "detected_face.jpg"
                 := image_save E face_pil]> (fs w)).
Proof.
  split.
  - intros record p request_id face_b64 data Hfields Hdata.
    pose proof (temp_path_fresh E p) as Hfresh.
    destruct (process_record_fs E record p _ _ _ Hfields Hdata)
      as (r & p1 & p' & Hbody & Hfs1 & Hrun & Hfp & Hfs).
    exists (temp_path E p), r, p1, p'. rewrite Hfs, delete_id by done. done.
  - intros. by eapply on_message_received_face_file.
Qed.

Lemma temp_file_released_once_bound_witness :
  (exists p',
     process_record Stub.E Stub.unnamed_record Stub.cold_start = (Ok tt, p') /\
     face_path p' = Some "/tmp/tmpx.jpg" /\
     fs (world p') = ∅) /\
  (exists w' data,
     on_message_received Stub.E "clients/thing"
       (Stub.inbound (Stub.picture 2 2 Byte.xc8) "r1" "a.jpg")
       Stub.empty_world = (Ok tt, w') /\
     fs w' !! "/tmp/faces/detected_face.jpg" = Some data).
Proof.
  split.
  - destruct (proj1 (temp_file_released_once_bound Stub.E)
                Stub.unnamed_record Stub.cold_start
                (JStr "r1")
                (JStr (String.string_of_list_byte (Stub.picture 2 2 Byte.xc8)))
                (Stub.picture 2 2 Byte.xc8))
      as (name & r & p1 & p' & _ & Hbody & _ & Hrun & Hfp & Hfs);
      [reflexivity | reflexivity |].
    exists p'. split; [exact Hrun|]. split; [|exact Hfs].
    rewrite Hfp. f_equal.
    pose proof (process_record_fs Stub.E Stub.unnamed_record Stub.cold_start
                  _ _ _ eq_refl eq_refl) as (r' & q1 & q' & _ & _ & Hrun' & Hfp' & _).
    rewrite Hrun in Hrun'. injection Hrun' as <-.
    rewrite Hfp in Hfp'. by injection Hfp' as ->.
  - destruct (stub_crop_normalizes Stub.E 200) as (face_pil & Hn & _).
    destruct (proj2 (temp_file_released_once_bound Stub.E) "clients/thing"
                (Stub.inbound (Stub.picture 2 2 Byte.xc8) "r1" "a.jpg")
                (JStr "r1") (JStr "a.jpg")
                (mk_arr (2, 2, 3)%nat (fun _ _ _ => 200%Z)) (Stub.crop 200)
                (Some (Q2Qc 1)) face_pil Stub.empty_world)
      as (w' & Hrun & Hfs).
    + eexists _, _, _, _. repeat split; reflexivity.
    + reflexivity.
    + reflexivity.
    + exact Hn.
    + exists w', (image_save Stub.E face_pil). split; [exact Hrun|].
      rewrite Hfs. apply lookup_insert_eq.
Defined.

(** The claim as stated fails in the ingestion stage: two different messages
    have their crops written to the same file, and after each delivery that
    file is still in the scratch area. *)
Lemma ingestion_file_shared_and_kept :
  exists w1 w2 data1 data2,
    on_message_received Stub.E "clients/thing"
      (Stub.inbound (Stub.picture 2 2 Byte.xc8) "r1" "a.jpg")
      Stub.empty_world = (Ok tt, w1) /\
    on_message_received Stub.E "clients/thing"
      (Stub.inbound (Stub.picture 2 2 Byte.x64) "r2" "b.jpg") w1
      = (Ok tt, w2) /\
    fs w1 = {["/tmp/faces/detected_face.jpg" := data1]} /\
    fs w2 = {["/tmp/faces/detected_face.jpg" := data2]}.
Proof.
  destruct (stub_crop_normalizes Stub.E 200) as (pil1 & Hn1 & _).
  destruct (stub_crop_normalizes Stub.E 100) as (pil2 & Hn2 & _).
  destruct (on_message_received_face_file Stub.E "clients/thing"
              (Stub.inbound (Stub.picture 2 2 Byte.xc8) "r1" "a.jpg")
              (JStr "r1") (JStr "a.jpg")
              (mk_arr (2, 2, 3)%nat (fun _ _ _ => 200%Z)) (Stub.crop 200)
              (Some (Q2Qc 1)) pil1 Stub.empty_world)
    as (w1 & Hrun1 & Hfs1);
    [by eexists _, _, _, _; repeat split; reflexivity | reflexivity
    | reflexivity | exact Hn1 |].
  destruct (on_message_received_face_file Stub.E "clients/thing"
              (Stub.inbound (Stub.picture 2 2 Byte.x64) "r2" "b.jpg")
              (JStr "r2") (JStr "b.jpg")
              (mk_arr (2, 2, 3)%nat (fun _ _ _ => 100%Z)) (Stub.crop 100)
              (Some (Q2Qc 1)) pil2 w1)
    as (w2 & Hrun2 & Hfs2);
    [by eexists _, _, _, _; repeat split; reflexivity | reflexivity
    | reflexivity | exact Hn2 |].
  exists w1, w2, (image_save Stub.E pil1), (image_save Stub.E pil2).
  split; [exact Hrun1|]. split; [exact Hrun2|].
  change (os_path_join (TMP_DIR Stub.E) "detected_face.jpg")
    with "/tmp/faces/detected_face.jpg" in Hfs1, Hfs2.
  rewrite Hfs2, Hfs1. split.
  - apply insert_empty.
  - rewrite insert_insert_eq. apply insert_empty.
Qed.
(** ** Further properties of the ingestion stage *)

(** [detect_face_to_file] changes the world only when it returns a path:
    when opening the picture, the detector, making the directory or the
    normalisation raises, or when no face is found, the world is as before;
    a returned path is always detected_face.jpg under the output directory,
    which could be made, and then the only change is that this file holds
    the saved normalised crop of the detected face. *)
Theorem detect_face_to_file_outcomes (E : Externals) (image_bytes : bytes)
    (output_dir : string) (w : World) :
  match detect_face_to_file E image_bytes output_dir w with
  | (Ok (Some path), w') =>
      path = os_path_join output_dir "detected_face.jpg" /\
      exists img face_tensor prob face_pil,
        image_open E image_bytes = Ok img /\
        mtcnn E img = Ok (Some face_tensor, prob) /\
        makedirs E output_dir (fs w) = Ok tt /\
        normalize_face E face_tensor = Ok face_pil /\
        w' = set_fs <[path := image_save E face_pil]> w
  | (Ok None, w') => w' = w
  | (Raise e, w') => w' = w
  end.
Proof.
  unfold detect_face_to_file, bind, lift, ret, os_makedirs, write_file, modify.
  destruct (image_open E image_bytes) as [img|e] eqn:Hopen; simpl; [|done].
  unfold np_array.
  destruct (mtcnn E img) as [[[face_tensor|] prob]|e] eqn:Hm; simpl;
    [|done..].
  destruct (makedirs E output_dir (fs w)) as [[]|e] eqn:Hmk; simpl; [|done].
  destruct (normalize_face E face_tensor) as [face_pil|e] eqn:Hn; simpl;
    [|done].
  split; [done|]. by exists img, face_tensor, prob, face_pil.
Qed.

(** Every delivery ends in one of four ways, and the handler itself never
    raises.  After the line that announces the message: (1) one WARNING and
    nothing sent or written; (2) one INFO and one No-Face message on the
    response queue, nothing written; (3) the crop file written, one face
    message on the request queue carrying the base64 of that file, one INFO;
    (4) nothing sent and a last line at ERROR level that carries the
    exception.  So a delivery sends at most one message, never one on each
    queue, and writes no file but the crop file. *)
Theorem ingestion_outcomes (E : Externals) topic payload w :
  exists w' lines,
    on_message_received E topic payload w = (Ok tt, w') /\
    logged w'
      = (logged w
         ++ mk_log INFO ("MQTT message on '" +:+ topic +:+ "'") None :: lines)%list /\
    ((fs w' = fs w /\ sent w' = sent w /\
      lines = [mk_log WARNING
                 "Invalid payload; required keys: encoded, request_id, filename"
                 None]) \/
     (fs w' = fs w /\
      (exists request_id filename,
         sent w' = (sent w ++ [(SQS_RESPONSE_QUEUE_URL E,
                      json_dumps E (no_face_message request_id filename))])%list) /\
      lines = [mk_log INFO
                 "No face detected. Sending 'No-Face' to response queue." None]) \/
     (exists request_id filename data,
        fs w' = <[os_path_join (TMP_DIR E) "detected_face.jpg" := data]> (fs w) /\
        sent w' = (sent w ++ [(SQS_REQUEST_QUEUE_URL E,
                     json_dumps E
                       (face_message request_id filename (b64encode E data)))])%list /\
        lines = [mk_log INFO "Face detected; enqueued to request queue." None]) \/
     (exists e,
        sent w' = sent w /\
        (fs w' = fs w \/
         exists data,
           fs w' = <[os_path_join (TMP_DIR E) "detected_face.jpg" := data]> (fs w)) /\
        last lines = Some (mk_log ERROR "Processing error: " (Some e)))).
Proof.
  run_handler. unfold np_array.
  repeat (rewrite ?lookup_insert_eq; case_external);
    rewrite ?lookup_insert_eq; simpl;
    (eexists _, _; split; [reflexivity|]; simpl; rewrite <- ?app_assoc;
     split; [reflexivity|]; simpl).
  all: first
    [ by left
    | by right; left; eauto
    | by right; right; left; eauto 10
    | by right; right; right; eauto 10 ].
Qed.
(** A payload that is not UTF-8, or not JSON, or JSON that is not an object
    (a list, a string, a number: it has no [get]) is not an error of the
    handler: it returns normally, sends and writes nothing, and logs the
    exception in one ERROR line. *)
Theorem bad_payload_logged (E : Externals) topic payload e w :
  utf8_decode E payload = Raise e \/
  (exists text, utf8_decode E payload = Ok text /\ json_loads E text = Raise e) \/
  (exists text v,
     utf8_decode E payload = Ok text /\ json_loads E text = Ok v /\
     (forall fields, v <> JObj fields) /\ e = AttributeError) ->
  on_message_received E topic payload w =
    (Ok tt,
     mk_world (fs w) (sent w)
       (logged w ++
          [mk_log INFO ("MQTT message on '" +:+ topic +:+ "'") None;
           mk_log ERROR "Processing error: " (Some e)])).
Proof.
  intros [Hd | [(text & Hd & Hp) | (text & v & Hd & Hp & Hv & ->)]];
    run_handler; rewrite Hd; simpl.
  - by rewrite <- app_assoc.
  - rewrite Hp. simpl. by rewrite <- app_assoc.
  - rewrite Hp. simpl.
    destruct v; simpl; try by rewrite <- app_assoc.
    by destruct (Hv fields).
Qed.

Lemma bad_payload_logged_witness :
  on_message_received Stub.E "clients/thing"
    (String.list_byte_of_string "no document") Stub.empty_world =
    (Ok tt,
     mk_world ∅ []
       [mk_log INFO "MQTT message on 'clients/thing'" None;
        mk_log ERROR "Processing error: " (Some JSONDecodeError)]).
Proof.
  apply (bad_payload_logged Stub.E "clients/thing"
           (String.list_byte_of_string "no document") JSONDecodeError
           Stub.empty_world).
  right. left. exists "no document". split; reflexivity.
Defined.

(** For a payload that decodes to an object, the handler drops the message
    with the warning and no output exactly when one of encoded, request_id,
    filename is falsy in Python's sense: absent or empty, but also the
    number 0 or false.  A message whose request_id is the number 0 is
    dropped. *)
Theorem dropped_iff_falsy (E : Externals) topic payload text fields w :
  utf8_decode E payload = Ok text ->
  json_loads E text = Ok (JObj fields) ->
  (on_message_received E topic payload w =
     (Ok tt,
      mk_world (fs w) (sent w)
        (logged w ++
           [mk_log INFO ("MQTT message on '" +:+ topic +:+ "'") None;
            mk_log WARNING
              "Invalid payload; required keys: encoded, request_id, filename"
              None]))
   <-> exists k, k ∈ required_keys /\
                 truthy (default JNull (assoc k fields)) = false).
Proof.
  intros Hd Hp. run_handler. rewrite Hd, Hp. simpl.
  destruct (truthy (default JNull (assoc "encoded" fields))) eqn:H1; simpl.
  2:{ rewrite <- app_assoc. split; [|done]. intros _. exists "encoded".
      split; [|done]. unfold required_keys. set_solver. }
  destruct (truthy (default JNull (assoc "request_id" fields))) eqn:H2; simpl.
  2:{ rewrite <- app_assoc. split; [|done]. intros _. exists "request_id".
      split; [|done]. unfold required_keys. set_solver. }
  destruct (truthy (default JNull (assoc "filename" fields))) eqn:H3; simpl.
  2:{ rewrite <- app_assoc. split; [|done]. intros _. exists "filename".
      split; [|done]. unfold required_keys. set_solver. }
  split.
  - unfold np_array.
    repeat (rewrite ?lookup_insert_eq; case_external);
      rewrite ?lookup_insert_eq; simpl;
      intros Heq; apply (f_equal (fun r => logged r.2)) in Heq;
      simpl in Heq; rewrite <- ?app_assoc in Heq;
      apply app_inv_head in Heq; discriminate.
  - intros (k & Hk & Hf). unfold required_keys in Hk.
    rewrite !elem_of_cons in Hk.
    destruct Hk as [->|[->|[->|Hk]]]; [congruence.. |by apply elem_of_nil in Hk].
Qed.

Lemma dropped_iff_falsy_witness :
  sent (on_message_received Stub.E "clients/thing"
          (String.list_byte_of_string "encoded=abc;request_id=;filename=a.jpg")
          Stub.empty_world).2 = [].
Proof.
  rewrite (proj2 (dropped_iff_falsy Stub.E "clients/thing"
                    (String.list_byte_of_string
                       "encoded=abc;request_id=;filename=a.jpg")
                    "encoded=abc;request_id=;filename=a.jpg"
                    [("encoded", JStr "abc"); ("request_id", JStr "");
                     ("filename", JStr "a.jpg")]
                    Stub.empty_world eq_refl eq_refl)).
  - reflexivity.
  - exists "request_id". split; [|reflexivity].
    unfold required_keys. rewrite !elem_of_cons. right. by left.
Defined.

(** When the queue service rejects every send, a valid message is lost
    without a retry: the handler returns normally, no send is recorded, and
    the last line logged is an ERROR line with the exception. *)
Theorem rejected_send_swallowed (E : Externals) topic payload request_id
    filename img w :
  valid_inbound E payload request_id filename img ->
  (forall url body, sqs_accepts E url body = false) ->
  exists w' e,
    on_message_received E topic payload w = (Ok tt, w') /\
    sent w' = sent w /\
    last (logged w') = Some (mk_log ERROR "Processing error: " (Some e)).
Proof.
  intros (text & fields & encoded & raw & Hd & Hp & He & Het & Hr & Hrt & Hf
          & Hft & Hb & Hi) Hdown.
  run_handler. rewrite Hd, Hp. simpl. rewrite He, Hr, Hf. simpl.
  rewrite Het, Hrt, Hft. simpl. rewrite Hb. simpl.
  unfold np_array.
  repeat (rewrite ?lookup_insert_eq, ?Hdown; simpl; try case_external);
    rewrite ?lookup_insert_eq, ?Hdown; simpl;
    (eexists _, _; split; [reflexivity|]; split; [reflexivity|]; simpl;
     apply last_snoc).
Qed.

Lemma rejected_send_swallowed_witness :
  exists w' e,
    on_message_received Stub.E_down "clients/thing"
      (Stub.inbound (Stub.picture 2 2 Byte.xff) "r2" "b.jpg")
      Stub.empty_world = (Ok tt, w') /\
    sent w' = [] /\
    last (logged w') = Some (mk_log ERROR "Processing error: " (Some e)).
Proof.
  apply (rejected_send_swallowed Stub.E_down "clients/thing"
           (Stub.inbound (Stub.picture 2 2 Byte.xff) "r2" "b.jpg")
           (JStr "r2") (JStr "b.jpg")
           (mk_arr (2, 2, 3)%nat (fun _ _ _ => 255%Z)) Stub.empty_world).
  - eexists _, _, _, _. repeat split; reflexivity.
  - reflexivity.
Defined.
(** ** Further properties of the recognition stage *)

Lemma np_argmin_bound (l : list Qc) (idx : nat) :
  np_argmin l = Ok idx -> (idx < length l)%nat.
Proof.
  intros H. destruct (np_argmin_spec l idx H) as (d & Hd & _).
  by apply lookup_lt_Some in Hd.
Qed.

(** The gallery match answers a stored label whenever the gallery is not
    empty, every reference vector broadcasts against the query, and there is
    a name for every reference vector.  It raises [ValueError] on an empty
    gallery (the argmin of no distances), [IndexError] only when there are
    fewer names than reference vectors, and otherwise only what [torch.dist]
    raises on some reference vector: a [RuntimeError], for a shape that does
    not broadcast against the query. *)
Theorem gallery_match_outcomes (E : Externals) (emb : vec)
    (embeddings : list vec) (names : list string) :
  (embeddings = [] -> nearest_name E emb embeddings names = Raise ValueError) /\
  (embeddings <> [] -> (length embeddings <= length names)%nat ->
   Forall (fun e => length e = length emb \/ length e = 1%nat
                    \/ length emb = 1%nat) embeddings ->
     exists idx label,
       nearest_name E emb embeddings names = Ok label /\
       (idx < length embeddings)%nat /\ names !! idx = Some label) /\
  (forall e, nearest_name E emb embeddings names = Raise e ->
     (e = ValueError /\ embeddings = []) \/
     (e = IndexError /\ (length names < length embeddings)%nat) \/
     (e = RuntimeError /\
      exists v, v ∈ embeddings /\ torch_dist E emb v = Raise RuntimeError /\
                length emb <> length v /\ length emb <> 1%nat
                /\ length v <> 1%nat)).
Proof.
  unfold nearest_name. split; [by intros -> |]. split.
  - intros Hne Hlen Hshape.
    destruct (py_list_comp_total (fun e => torch_dist E emb e) embeddings)
      as [dists Hdists].
    { eapply Forall_impl; [exact Hshape|]. intros e He. simpl in He.
      apply (torch_dist_outcomes E emb e).
      destruct He as [He|[He|He]];
        [left; done | right; right; done | right; left; done]. }
    rewrite Hdists. simpl. apply py_list_comp_Ok in Hdists.
    pose proof (Forall2_length _ _ _ Hdists) as Hlen2.
    destruct (np_argmin dists) as [idx|e] eqn:Harg.
    2:{ destruct dists; [|done]. by destruct embeddings. }
    pose proof (np_argmin_bound _ _ Harg) as Hidx.
    simpl. unfold list_getitem.
    destruct (names !! idx) as [label|] eqn:Hname.
    + exists idx, label. split; [done|]. split; [lia | done].
    + apply lookup_ge_None in Hname. lia.
  - intros e.
    destruct (py_list_comp _ embeddings) as [dists|e'] eqn:Hdists; simpl.
    + apply py_list_comp_Ok in Hdists.
      pose proof (Forall2_length _ _ _ Hdists) as Hlen2.
      destruct (np_argmin dists) as [idx|e''] eqn:Harg; simpl.
      * unfold list_getitem.
        destruct (names !! idx) as [label|] eqn:Hname; [done|].
        intros [= <-]. right. left. split; [done|].
        apply lookup_ge_None in Hname.
        pose proof (np_argmin_bound _ _ Harg) as Hidx. lia.
      * destruct dists; [|done]. simpl in Harg. injection Harg as <-.
        intros [= <-]. left. split; [done|]. by destruct embeddings.
    + intros [= <-]. right. right.
      destruct (py_list_comp_Raise _ _ _ Hdists) as (v & Hin & Hv).
      destruct (proj2 (torch_dist_outcomes E emb v) _ Hv)
        as (-> & H1 & H2 & H3).
      split; [done|]. by exists v.
Qed.

Lemma gallery_match_outcomes_witness :
  nearest_name Stub.E [Q2Qc 1; Q2Qc 1; Q2Qc 1] [] ["alice"] = Raise ValueError /\
  exists idx label,
    nearest_name Stub.E [Q2Qc 1; Q2Qc 1; Q2Qc 1] Stub.twin_gallery
      Stub.twin_names = Ok label /\
    (idx < 2)%nat /\ Stub.twin_names !! idx = Some label.
Proof.
  split.
  - apply (proj1 (gallery_match_outcomes Stub.E [Q2Qc 1; Q2Qc 1; Q2Qc 1]
                    [] ["alice"])). reflexivity.
  - apply (proj1 (proj2 (gallery_match_outcomes Stub.E
                           [Q2Qc 1; Q2Qc 1; Q2Qc 1] Stub.twin_gallery
                           Stub.twin_names))).
    + discriminate.
    + simpl. lia.
    + constructor; [by left|]. constructor; [by left|]. constructor.
Defined.

(** A call of [_load_models] that returns leaves all three of the network,
    the reference vectors and the names cached and changes nothing else;
    from then on a call is a no-op that consults no loader, whatever the
    loaders would now return. *)
Theorem load_models_once (E E' : Externals) (p p1 : Lambda) :
  _load_models E p = (Ok tt, p1) ->
  (exists net embeddings names,
     recognizer p1 = mk_recognizer (Some net) (Some embeddings) (Some names)) /\
  world p1 = world p /\ face_path p1 = face_path p /\
  _load_models E' p1 = (Ok tt, p1).
Proof.
  destruct p as [w [rn em nm] fp].
  unfold _load_models, bind, gets, lift, modify, ret, set_recognizer. simpl.
  destruct rn as [net|]; simpl.
  - destruct em as [em|], nm as [nm|]; simpl.
    1:{ intros [= <-]. simpl. eauto 10. }
    all: destruct (torch_load E (MODEL_WT_PATH E)) as [[es ns]|e]; simpl;
      [|done]; intros [= <-]; simpl; eauto 10.
  - destruct (torch_jit_load E (MODEL_PATH E)) as [net|e]; simpl; [|done].
    destruct em as [em|], nm as [nm|]; simpl.
    1:{ intros [= <-]. simpl. eauto 10. }
    all: destruct (torch_load E (MODEL_WT_PATH E)) as [[es ns]|e]; simpl;
      [|done]; intros [= <-]; simpl; eauto 10.
Qed.

Lemma load_models_once_witness :
  exists p1,
    _load_models Stub.E Stub.cold_start = (Ok tt, p1) /\
    _load_models Stub.E_down p1 = (Ok tt, p1).
Proof.
  eexists. split; [reflexivity|].
  apply (load_models_once Stub.E Stub.E_down Stub.cold_start). reflexivity.
Defined.
Lemma process_record_log (E : Externals) (record : json) (p : Lambda) :
  cache_consistent E (recognizer p) ->
  exists p',
    process_record E record p = (Ok tt, p') /\
    cache_consistent E (recognizer p') /\
    sent (world p') = (sent (world p) ++ emission E record)%list /\
    exists lines,
      logged (world p') = (logged (world p) ++ lines)%list /\
      Forall (fun l => lvl l = STDOUT
                       /\ msg l = "[ERROR] Failed to process record: ") lines /\
      length lines = (if malformed E record then 1 else 0)%nat.
Proof.
  intros Hc. pose proof (record_body_spec E record p) as Hbody.
  unfold process_record, try_finally, try_except, emission, malformed,
    record_result.
  simpl in Hbody.
  destruct (record_fields E record) as [[request_id face_b64]|e] eqn:Hfields;
    simpl.
  2:{ rewrite Hbody. unfold in_world, logging, modify. simpl.
      rewrite record_cleanup_spec. eexists. split; [reflexivity|].
      simpl. rewrite app_nil_r. split; [done|]. split; [done|].
      eexists [_]. split; [reflexivity|]. split; [|done].
      by apply Forall_singleton. }
  destruct (base64_b64decode E face_b64) as [data|e] eqn:Hdata; simpl.
  2:{ rewrite Hbody. unfold in_world, logging, modify. simpl.
      rewrite record_cleanup_spec. eexists. split; [reflexivity|].
      simpl. rewrite app_nil_r. split; [done|]. split; [done|].
      eexists [_]. split; [reflexivity|]. split; [|done].
      by apply Forall_singleton. }
  destruct Hbody as (r & rc & out & Hrun & Hspec).
  destruct (Hspec Hc) as [Hc' Hout]. rewrite Hrun.
  unfold record_result in Hout. rewrite Hfields in Hout. simpl in Hout.
  rewrite Hdata in Hout. simpl in Hout.
  destruct (predict_result E data) as [label|e]; simpl in *.
  - destruct (sqs_accepts E _ _); simpl in *.
    + destruct Hout as [-> ->]. rewrite record_cleanup_spec.
      eexists. split; [reflexivity|]. simpl. split; [done|]. split; [done|].
      exists []. rewrite app_nil_r. by split.
    + destruct Hout as [[e ->] ->].
      unfold in_world, logging, modify. simpl.
      rewrite record_cleanup_spec. eexists. split; [reflexivity|].
      simpl. split; [done|]. split; [done|].
      eexists [_]. split; [reflexivity|]. split; [|done].
      by apply Forall_singleton.
  - destruct Hout as [[e' ->] ->].
    unfold in_world, logging, modify. simpl.
    rewrite record_cleanup_spec. eexists. split; [reflexivity|].
    simpl. split; [done|]. split; [done|].
    eexists [_]. split; [reflexivity|]. split; [|done].
    by apply Forall_singleton.
Qed.

Lemma for_each_process_record_log (E : Externals) (records : list json) :
  forall p,
    cache_consistent E (recognizer p) ->
    exists p' lines,
      for_each records (process_record E) p = (Ok tt, p') /\
      cache_consistent E (recognizer p') /\
      sent (world p') = (sent (world p) ++ flat_map (emission E) records)%list /\
      logged (world p') = (logged (world p) ++ lines)%list /\
      Forall (fun l => lvl l = STDOUT
                       /\ msg l = "[ERROR] Failed to process record: ") lines /\
      length lines = length (List.filter (malformed E) records).
Proof.
  induction records as [|record records IH]; intros p Hc; simpl.
  - exists p, []. unfold ret. rewrite !app_nil_r. done.
  - destruct (process_record_log E record p Hc)
      as (p1 & Hrun & Hc1 & Hs1 & lines1 & Hl1 & Hall1 & Hn1).
    destruct (IH p1 Hc1) as (p2 & lines2 & Hrest & Hc2 & Hs2 & Hl2 & Hall2 & Hn2).
    exists p2, (lines1 ++ lines2)%list. unfold bind. rewrite Hrun, Hrest.
    split; [done|]. split; [done|].
    split; [by rewrite Hs2, Hs1, <- app_assoc|].
    split; [by rewrite Hl2, Hl1, <- app_assoc|].
    split; [by apply Forall_app|].
    rewrite length_app, Hn1, Hn2. by destruct (malformed E record).
Qed.

Lemma lambda_handler_iter_run (E : Externals)
    (fields : list (string * json)) (records : list json) (p : Lambda) :
  py_iter (default (JArr []) (assoc "Records" fields)) = Ok records ->
  cache_consistent E (recognizer p) ->
  exists p' lines,
    lambda_handler E (JObj fields) p = (Ok (success_envelope E), p') /\
    cache_consistent E (recognizer p') /\
    sent (world p') = (sent (world p) ++ flat_map (emission E) records)%list /\
    logged (world p') = (logged (world p) ++ lines)%list /\
    Forall (fun l => lvl l = STDOUT
                     /\ msg l = "[ERROR] Failed to process record: ") lines /\
    length lines = length (List.filter (malformed E) records).
Proof.
  intros Hiter Hc.
  destruct (for_each_process_record_log E records (set_face_path None p) Hc)
    as (p' & lines & Hrun & Hc' & Hs & Hl & Hall & Hn).
  exists p', lines. unfold lambda_handler, bind, modify, lift, ret. simpl.
  rewrite Hiter. simpl. by rewrite Hrun.
Qed.

(** For every event whose Records can be iterated (a list; also a string or
    an object, whose characters or keys are then taken as records) and
    whatever the records are, [lambda_handler] returns the success envelope;
    the response queue receives, in the order of the records, one result
    message for each record that is well-formed and nothing for the others;
    each malformed record adds exactly one line to standard output; and what
    the recognizer has cached stays what the loaders return, so the same
    holds for the next invocation of the warm process. *)
Theorem batch_emissions_in_order (E : Externals)
    (fields : list (string * json)) (records : list json) (p : Lambda) :
  py_iter (default (JArr []) (assoc "Records" fields)) = Ok records ->
  cache_consistent E (recognizer p) ->
  exists p' lines,
    lambda_handler E (JObj fields) p = (Ok (success_envelope E), p') /\
    cache_consistent E (recognizer p') /\
    sent (world p') = (sent (world p) ++ flat_map (emission E) records)%list /\
    (length (flat_map (emission E) records)
     = length records - length (List.filter (malformed E) records))%nat /\
    logged (world p') = (logged (world p) ++ lines)%list /\
    Forall (fun l => lvl l = STDOUT
                     /\ msg l = "[ERROR] Failed to process record: ") lines /\
    length lines = length (List.filter (malformed E) records).
Proof.
  intros Hiter Hc.
  destruct (lambda_handler_iter_run E fields records p Hiter Hc)
    as (p' & lines & Hrun & Hc' & Hs & Hl & Hall & Hn).
  exists p', lines.
  split; [done|]. split; [done|]. split; [done|].
  split; [|done]. pose proof (emission_count E records). lia.
Qed.

Lemma batch_emissions_in_order_witness :
  exists p' lines,
    lambda_handler Stub.E Stub.batch Stub.cold_start
      = (Ok (success_envelope Stub.E), p') /\
    length (sent (world p')) = 2%nat /\
    logged (world p') = lines /\ length lines = 1%nat.
Proof.
  destruct (batch_emissions_in_order Stub.E
              [("Records", JArr Stub.batch_records)] Stub.batch_records
              Stub.cold_start)
    as (p' & lines & Hrun & _ & Hs & _ & Hl & _ & Hn).
  - reflexivity.
  - split; intros; discriminate.
  - exists p', lines. split; [exact Hrun|]. rewrite Hs, Hl, Hn.
    split; [by vm_compute|]. split; [reflexivity | by vm_compute].
Defined.

(** An event that is not an object, or whose Records is present but null, a
    boolean or a number, makes [lambda_handler] raise ([AttributeError] for
    the missing [get], [TypeError] for the iteration) before any record is
    looked at: nothing is sent, written or logged.  A Records that is a
    string is iterated character by character: every character is a
    malformed record, so the handler returns the success envelope and sends
    nothing. *)
Theorem event_shape_errors (E : Externals) (p : Lambda) :
  (forall event,
     (forall fields, event <> JObj fields) ->
     lambda_handler E event p = (Raise AttributeError, set_face_path None p)) /\
  (forall fields v,
     assoc "Records" fields = Some v ->
     v = JNull \/ (exists b, v = JBool b) \/ (exists n, v = JInt n)
     \/ (exists q, v = JFloat q) ->
     lambda_handler E (JObj fields) p
       = (Raise TypeError, set_face_path None p)) /\
  (forall fields s,
     assoc "Records" fields = Some (JStr s) ->
     cache_consistent E (recognizer p) ->
     exists p',
       lambda_handler E (JObj fields) p = (Ok (success_envelope E), p') /\
       sent (world p') = sent (world p) /\
       length (logged (world p'))
       = (length (logged (world p)) + String.length s)%nat).
Proof.
  split; [|split].
  - intros event Hev. unfold lambda_handler, bind, modify, lift. simpl.
    destruct event; try done. by destruct (Hev fields).
  - intros fields v Hv Hshape.
    unfold lambda_handler, bind, modify, lift. simpl. rewrite Hv. simpl.
    by destruct Hshape as [->|[[b ->]|[[n ->]|[q ->]]]].
  - intros fields s Hv Hc.
    destruct (lambda_handler_iter_run E fields
                (map (fun c => JStr (String c EmptyString))
                   (String.list_ascii_of_string s)) p)
      as (p' & lines & Hrun & _ & Hs & Hl & _ & Hn); [by rewrite Hv | done |].
    exists p'. split; [done|].
    assert (Hbad : forall l : list Ascii.ascii,
              flat_map (emission E)
                (map (fun c => JStr (String c EmptyString)) l) = []
              /\ length (List.filter (malformed E)
                   (map (fun c => JStr (String c EmptyString)) l)) = length l).
    { induction l as [|c l [IH1 IH2]]; [done|].
      cbn [map flat_map List.filter].
      change (emission E (JStr (String c EmptyString))) with
        (@nil (string * string)).
      change (malformed E (JStr (String c EmptyString))) with true.
      cbn [app length]. by rewrite IH1, IH2. }
    destruct (Hbad (String.list_ascii_of_string s)) as [Hem Hcount].
    rewrite Hs, Hem, app_nil_r. split; [done|].
    rewrite Hl, length_app, Hn, Hcount.
    f_equal. clear. induction s as [|c s IH]; simpl; [done|]. by rewrite IH.
Qed.

Lemma event_shape_errors_witness :
  lambda_handler Stub.E (JArr []) Stub.cold_start
    = (Raise AttributeError, Stub.cold_start) /\
  lambda_handler Stub.E (JObj [("Records", JNull)]) Stub.cold_start
    = (Raise TypeError, Stub.cold_start) /\
  exists p',
    lambda_handler Stub.E (JObj [("Records", JStr "ab")]) Stub.cold_start
      = (Ok (success_envelope Stub.E), p') /\
    sent (world p') = [] /\ length (logged (world p')) = 2%nat.
Proof.
  split; [|split].
  - apply (proj1 (event_shape_errors Stub.E Stub.cold_start) (JArr [])).
    intros fields. discriminate.
  - apply (proj1 (proj2 (event_shape_errors Stub.E Stub.cold_start))
             [("Records", JNull)] JNull); [reflexivity | by left].
  - apply (proj2 (proj2 (event_shape_errors Stub.E Stub.cold_start))
             [("Records", JStr "ab")] "ab"); [reflexivity|].
    split; intros; discriminate.
Defined.
Lemma lambda_handler_for_each (E : Externals) fields records p :
  default (JArr []) (assoc "Records" fields) = JArr records ->
  lambda_handler E (JObj fields) p =
    (let '(r, p') := for_each records (process_record E) (set_face_path None p) in
     (match r with Ok _ => Ok (success_envelope E) | Raise e => Raise e end, p')).
Proof.
  intros Hrecords. unfold lambda_handler, bind, modify, lift, ret. simpl.
  rewrite Hrecords. simpl.
  by destruct (for_each records (process_record E) _) as [[[]|e] p'].
Qed.

(** When the face text of the first record of an invocation does not decode
    from base64, the record gets no result message, the handler still
    returns the success envelope, and the temporary file that was created
    for the record, still empty, is left in the scratch area: the cleanup
    looks for a path that was never bound. *)
Theorem decode_failure_leaves_temp_file (E : Externals) (record : json)
    (p : Lambda) request_id face_b64 e :
  record_fields E record = Ok (request_id, face_b64) ->
  base64_b64decode E face_b64 = Raise e ->
  exists p',
    lambda_handler E (JObj [("Records", JArr [record])]) p
      = (Ok (success_envelope E), p') /\
    sent (world p') = sent (world p) /\
    fs (world p) !! temp_path E p = None /\
    fs (world p') = <[temp_path E p := []]> (fs (world p)).
Proof.
  intros Hfields Hdata.
  destruct (process_record_decode_fails E record (set_face_path None p)
              request_id face_b64 e Hfields Hdata eq_refl)
    as (p' & Hrun & Hfs).
  pose proof (record_body_spec E record (set_face_path None p)) as Hbody.
  simpl in Hbody. rewrite Hfields, Hdata in Hbody.
  exists p'. rewrite (lambda_handler_for_each E _ [record]) by reflexivity.
  change (for_each [record] (process_record E))
    with (bind (process_record E record) (fun _ => @ret Lambda unit tt)).
  unfold bind. rewrite Hrun. unfold ret. split; [done|].
  split; [|split; [apply temp_path_fresh | done]].
  revert Hrun. unfold process_record, try_finally, try_except.
  rewrite Hbody. unfold in_world, logging, modify.
  rewrite record_cleanup_spec. by intros [= <-].
Qed.

Lemma decode_failure_leaves_temp_file_witness :
  exists p',
    lambda_handler Stub.E_padded
      (JObj [("Records", JArr [Stub.truncated_record])]) Stub.cold_start
      = (Ok (success_envelope Stub.E_padded), p') /\
    sent (world p') = [] /\
    fs (world p') = {["/tmp/tmpx.jpg" := []]}.
Proof.
  destruct (decode_failure_leaves_temp_file Stub.E_padded
              Stub.truncated_record Stub.cold_start (JStr "r9") (JStr "abc")
              BinasciiError) as (p' & Hrun & Hs & _ & Hfs);
    [reflexivity | reflexivity |].
  exists p'. split; [exact Hrun|]. split; [exact Hs | exact Hfs].
Defined.

(** The two stages fit together: the work item that the ingestion stage
    sends for a crop, taken by the recognition stage as the body of a
    record, is well-formed as soon as the crop can be recognised; the face
    it decodes is the crop file byte for byte, the result message carries
    the request_id of the inbound message, and the filename is dropped on
    the way.  (JSON and base64 round-trip on this item.) *)
Theorem work_item_accepted (E : Externals) (request_id filename : json)
    (data : bytes) (label : string) (p : Lambda) :
  let item := face_message request_id filename (b64encode E data) in
  json_loads E (json_dumps E item) = Ok item ->
  b64decode E (b64encode E data) = Ok data ->
  predict_result E data = Ok label ->
  sqs_accepts E (SQS_RESPONSE_QUEUE_URL E)
    (json_dumps E (result_message request_id label)) = true ->
  cache_consistent E (recognizer p) ->
  exists p',
    lambda_handler E
      (JObj [("Records", JArr [JObj [("body", JStr (json_dumps E item))]])]) p
      = (Ok (success_envelope E), p') /\
    sent (world p')
      = (sent (world p)
         ++ [(SQS_RESPONSE_QUEUE_URL E,
              json_dumps E (result_message request_id label))])%list.
Proof.
  intros item Hjson H64 Hlabel Hacc Hc.
  destruct (lambda_handler_run E
              [("Records", JArr [JObj [("body", JStr (json_dumps E item))]])]
              [JObj [("body", JStr (json_dumps E item))]] p)
    as (p' & Hrun & _ & Hs); [done..|].
  exists p'. split; [done|]. rewrite Hs. f_equal. simpl.
  rewrite app_nil_r. unfold emission, record_result, record_fields.
  simpl. rewrite Hjson. simpl. rewrite H64. simpl. rewrite Hlabel. simpl.
  by rewrite Hacc.
Qed.

Lemma work_item_accepted_witness :
  exists p',
    lambda_handler Stub.E
      (JObj [("Records",
              JArr [JObj [("body",
                           JStr (json_dumps Stub.E
                                   (face_message (JStr "r1") (JStr "a.jpg")
                                      (b64encode Stub.E
                                         (Stub.picture 2 2 Byte.xc8)))))]])])
      Stub.cold_start
      = (Ok (success_envelope Stub.E), p') /\
    sent (world p')
      = [(SQS_RESPONSE_QUEUE_URL Stub.E, "request_id=r1;result=bob")].
Proof.
  apply (work_item_accepted Stub.E (JStr "r1") (JStr "a.jpg")
           (Stub.picture 2 2 Byte.xc8) "bob" Stub.cold_start).
  - reflexivity.
  - reflexivity.
  - by vm_compute.
  - reflexivity.
  - split; intros; discriminate.
Defined.
Lemma process_record_clean (E : Externals) (record : json) (p : Lambda) :
  bound_path_released p ->
  face_decodes E record ->
  exists p',
    process_record E record p = (Ok tt, p') /\
    fs (world p') = fs (world p) /\ bound_path_released p'.
Proof.
  intros Hinv Hdec. unfold face_decodes in Hdec.
  pose proof (temp_path_fresh E p) as Hfresh.
  pose proof (record_body_spec E record p) as Hbody. simpl in Hbody.
  destruct (record_fields E record) as [[request_id face_b64]|e] eqn:Hfields.
  - destruct Hdec as [data Hdata].
    destruct (process_record_fs E record p _ _ _ Hfields Hdata)
      as (r & p1 & p' & _ & _ & Hrun & Hfp & Hfs).
    exists p'. split; [done|].
    rewrite delete_id in Hfs by apply Hfresh. split; [done|].
    intros path. rewrite Hfp, Hfs. by intros [= <-].
  - unfold process_record, try_finally, try_except. rewrite Hbody.
    unfold in_world, logging, modify. rewrite record_cleanup_spec.
    eexists. split; [reflexivity|]. destruct p as [[m s l] rc fp].
    simpl in *. unfold bound_path_released in *. simpl in *.
    destruct fp as [path|]; [|done].
    rewrite delete_id by (by apply Hinv). split; [done|].
    intros path' [= <-]. by apply Hinv.
Qed.

Lemma for_each_process_record_clean (E : Externals) (records : list json) :
  Forall (face_decodes E) records ->
  forall p,
    bound_path_released p ->
    exists p',
      for_each records (process_record E) p = (Ok tt, p') /\
      fs (world p') = fs (world p).
Proof.
  intros Hall. induction Hall as [|record records Hdec _ IH];
    intros p Hinv; simpl.
  - by exists p.
  - destruct (process_record_clean E record p Hinv Hdec)
      as (p1 & Hrun & Hfs1 & Hinv1).
    destruct (IH p1 Hinv1) as (p' & Hrest & Hfs).
    exists p'. unfold bind. rewrite Hrun, Hrest. split; [done|]. congruence.
Qed.

(** A batch leaves the scratch area as it found it, provided no face text
    fails to decode: whatever else goes wrong with a record (no body, a body
    that does not parse, a missing key, a picture that does not open, a model
    that does not load, a send that is refused), after [lambda_handler]
    returns the files are exactly those that were there before. *)
Theorem scratch_area_left_clean (E : Externals)
    (fields : list (string * json)) (records : list json) (p : Lambda) :
  default (JArr []) (assoc "Records" fields) = JArr records ->
  Forall (face_decodes E) records ->
  exists p',
    lambda_handler E (JObj fields) p = (Ok (success_envelope E), p') /\
    fs (world p') = fs (world p).
Proof.
  intros Hrecords Hall.
  destruct (for_each_process_record_clean E records Hall
              (set_face_path None p)) as (p' & Hrun & Hfs); [done|].
  exists p'. rewrite (lambda_handler_for_each E fields records p Hrecords).
  by rewrite Hrun.
Qed.

Lemma scratch_area_left_clean_witness :
  exists p',
    lambda_handler Stub.E Stub.batch Stub.cold_start
      = (Ok (success_envelope Stub.E), p') /\
    fs (world p') = ∅.
Proof.
  destruct (scratch_area_left_clean Stub.E
              [("Records", JArr Stub.batch_records)]
              Stub.batch_records Stub.cold_start)
    as (p' & Hrun & Hfs).
  - reflexivity.
  - constructor; [|constructor; [|constructor; [|constructor]]].
    + exists (Stub.picture 2 2 Byte.xc8). reflexivity.
    + exact I.
    + exists (Stub.picture 2 2 Byte.x0a). reflexivity.
  - exists p'. split; [exact Hrun | exact Hfs].
Defined.
